(** * go-crud-service: a shallow embedding of [main.go]

    The service keeps one table of books in PostgreSQL and serves five
    handlers over it.  This development embeds the handlers, the path-ID
    extractor and the pieces of the Go standard library and of the SQL
    statements they rest on, and proves the properties the specification
    states about them.

    Conventions.
    - A Go [string] is a sequence of bytes: [string] of the Standard Library.
    - [int64] and [int] (64 bits on the platforms the service targets) are [Z];
      every place where Go checks or wraps the range does so explicitly.
    - A Go [(T, error)] result is a sum [error + T]; a run-time panic is
      [None] in an [option].
    - A nil slice and an empty slice are different values: [slice A] is
      [option (list A)] with [None] for nil. *)

From Stdlib Require Import ZArith List String Ascii Bool Lia.
Import ListNotations.
Open Scope string_scope.
Open Scope Z_scope.

Set Warnings "-register-all".

(** ** Bytes and strings *)

Definition code (c : ascii) : Z := Z.of_N (N_of_ascii c).

Definition chr (z : Z) : ascii := ascii_of_N (Z.to_N z).

(** [strings.IndexRune(ok, r) >= 0] for a one-byte rune [r]. *)
Fixpoint indexByte (c : ascii) (ok : string) : bool :=
  match ok with
  | EmptyString => false
  | String k rest => if Ascii.eqb c k then true else indexByte c rest
  end.

(** [s[n:]] when [n <= len(s)]. *)
Fixpoint drop (n : nat) (s : string) : string :=
  match n, s with
  | O, _ => s
  | S k, String _ rest => drop k rest
  | S _, EmptyString => EmptyString
  end.

Definition len (s : string) : Z := Z.of_nat (String.length s).

Definition nl : string := String (chr 10) EmptyString.

(** ** strconv: ParseUint, ParseInt, FormatInt *)

Module strconv.

Inductive NumError := ErrSyntax | ErrRange | ErrBase | ErrBitSize.

Definition maxUint64 : Z := 2 ^ 64 - 1.

(** [lower(c)] is [c | ('x' - 'X')]. *)
Definition lower (c : Z) : Z := Z.lor c 32.

(** The digit loop of [ParseUint]: [n] is the value so far, [underscores]
    whether an underscore was skipped. *)
Fixpoint digitLoop (base0 : bool) (base cutoff maxVal : Z)
         (s : string) (n : Z) (underscores : bool) : NumError + (Z * bool) :=
  match s with
  | EmptyString => inr (n, underscores)
  | String ch rest =>
      let c := code ch in
      if (c =? 95) && base0 then
        digitLoop base0 base cutoff maxVal rest n true
      else
        let d :=
          if (48 <=? c) && (c <=? 57) then Some (c - 48)
          else if (97 <=? lower c) && (lower c <=? 122)
               then Some (lower c - 97 + 10)
               else None in
        match d with
        | None => inl ErrSyntax
        | Some d =>
            if d >=? base then inl ErrSyntax
            else if n >=? cutoff then inl ErrRange
            else
              let n' := (n * base) mod 2 ^ 64 in
              let n1 := (n' + d) mod 2 ^ 64 in
              if (n1 <? n') || (n1 >? maxVal) then inl ErrRange
              else digitLoop base0 base cutoff maxVal rest n1 underscores
        end
  end.

(** [underscoreOK]: underscores only between digits or between a base
    prefix and a digit.  [saw] is 94 for the beginning, 48 after a
    digit or prefix, 95 after an underscore, 33 after anything else. *)
Fixpoint underscoreLoop (hex : bool) (s : string) (saw : Z) : bool :=
  match s with
  | EmptyString => negb (saw =? 95)
  | String ch rest =>
      let c := code ch in
      if ((48 <=? c) && (c <=? 57))
         || (hex && (97 <=? lower c) && (lower c <=? 102))
      then underscoreLoop hex rest 48
      else if c =? 95 then
        if negb (saw =? 48) then false else underscoreLoop hex rest 95
      else if saw =? 95 then false
      else underscoreLoop hex rest 33
  end.

Definition underscoreOK (s : string) : bool :=
  let s :=
    match s with
    | String c rest =>
        if (code c =? 45) || (code c =? 43) then rest else s
    | EmptyString => s
    end in
  match s with
  | String c0 (String c1 rest) =>
      if (code c0 =? 48)
         && ((lower (code c1) =? 98) || (lower (code c1) =? 111)
             || (lower (code c1) =? 120))
      then underscoreLoop (lower (code c1) =? 120) rest 48
      else underscoreLoop false s 94
  | _ => underscoreLoop false s 94
  end.

(** [ParseUint(s, base, bitSize)]: the value and the error, as Go returns
    both ([maxVal] comes with a range error). *)
Definition ParseUint (s : string) (base bitSize : Z) : Z * option NumError :=
  match s with
  | EmptyString => (0, Some ErrSyntax)
  | String c0 after0 =>
      let base0 := base =? 0 in
      let pick : option (Z * string) :=
        if (2 <=? base) && (base <=? 36) then Some (base, s)
        else if base =? 0 then
          if code c0 =? 48 then
            match after0 with
            | String c1 after1 =>
                if (3 <=? len s) && (lower (code c1) =? 98)
                then Some (2, after1)
                else if (3 <=? len s) && (lower (code c1) =? 111)
                then Some (8, after1)
                else if (3 <=? len s) && (lower (code c1) =? 120)
                then Some (16, after1)
                else Some (8, after0)
            | EmptyString => Some (8, after0)
            end
          else Some (10, s)
        else None in
      match pick with
      | None => (0, Some ErrBase)
      | Some (b, body) =>
          if (bitSize <? 0) || (bitSize >? 64) then (0, Some ErrBitSize)
          else
            let bitSize := if bitSize =? 0 then 64 else bitSize in
            let cutoff := maxUint64 / b + 1 in
            let maxVal := 2 ^ bitSize - 1 in
            match digitLoop base0 b cutoff maxVal body 0 false with
            | inl ErrRange => (maxVal, Some ErrRange)
            | inl e => (0, Some e)
            | inr (n, underscores) =>
                if underscores && negb (underscoreOK s)
                then (0, Some ErrSyntax)
                else (n, None)
            end
      end
  end.

(** [ParseInt(s, base, bitSize)]. *)
Definition ParseInt (s : string) (base bitSize : Z) : NumError + Z :=
  match s with
  | EmptyString => inl ErrSyntax
  | String c0 rest =>
      let neg := code c0 =? 45 in
      let s' := if (code c0 =? 43) || neg then rest else s in
      let '(un, err) := ParseUint s' base bitSize in
      match err with
      | Some ErrSyntax => inl ErrSyntax
      | Some ErrBase => inl ErrBase
      | Some ErrBitSize => inl ErrBitSize
      | _ =>
          let bitSize := if bitSize =? 0 then 64 else bitSize in
          let cutoff := 2 ^ (bitSize - 1) in
          if negb neg && (un >=? cutoff) then inl ErrRange
          else if neg && (un >? cutoff) then inl ErrRange
          else inr (if neg then - un else un)
      end
  end.

(** [FormatInt(i, 10)], which is what the verb [%d] prints for an
    [int64]: the digits of the magnitude, least significant first, are
    pushed in front of [acc].  Twenty digits hold any 64-bit magnitude. *)
Fixpoint formatBits (fuel : nat) (u : Z) (acc : string) : string :=
  match fuel with
  | O => acc
  | S f =>
      let acc' := String (chr (48 + u mod 10)) acc in
      if u <? 10 then acc' else formatBits f (u / 10) acc'
  end.

Definition FormatInt (i : Z) : string :=
  if i <? 0 then String (chr 45) (formatBits 20 (- i) EmptyString)
  else formatBits 20 i EmptyString.

End strconv.

(** ** fmt: Sscan into an int64 *)

Module fmt.

Inductive ScanError :=
| OutOfInput        (* the input ran out where a token had to begin *)
| ExpectedInteger
| NumErr (e : strconv.NumError).

(** The scan state [ss]: the input not yet read and the token buffer. *)
Record ss := { input : string; buf : string }.

Definition sign : string := "+-".
Definition binaryDigits : string := "01".
Definition octalDigits : string := "01234567".
Definition decimalDigits : string := "0123456789".
Definition hexadecimalDigits : string := "0123456789aAbBcCdDeEfF".

(** [isSpace] on the rune at the head of the input, by its UTF-8 bytes:
    U+0009..U+000D, U+0020, U+0085, U+00A0, U+1680, U+2000..U+200A,
    U+2028, U+2029, U+202F, U+205F, U+3000.  [SkipSpace] for [Sscan],
    where a newline counts as space. *)
Fixpoint SkipSpace (s : string) : string :=
  match s with
  | EmptyString => s
  | String c0 r0 =>
      let b0 := code c0 in
      if ((9 <=? b0) && (b0 <=? 13)) || (b0 =? 32) then SkipSpace r0
      else
        match r0 with
        | EmptyString => s
        | String c1 r1 =>
            let b1 := code c1 in
            if (b0 =? 194) && ((b1 =? 133) || (b1 =? 160)) then SkipSpace r1
            else
              match r1 with
              | EmptyString => s
              | String c2 r2 =>
                  let b2 := code c2 in
                  if ((b0 =? 225) && (b1 =? 154) && (b2 =? 128))
                     || ((b0 =? 226) && (b1 =? 128)
                         && (((128 <=? b2) && (b2 <=? 138))
                             || (b2 =? 168) || (b2 =? 169) || (b2 =? 175)))
                     || ((b0 =? 226) && (b1 =? 129) && (b2 =? 159))
                     || ((b0 =? 227) && (b1 =? 128) && (b2 =? 128))
                  then SkipSpace r2
                  else s
              end
        end
  end.

(** [s.peek(ok)]: is the next rune one of [ok]? *)
Definition peek (ok : string) (s : ss) : bool :=
  match input s with
  | EmptyString => false
  | String c _ => indexByte c ok
  end.

(** [s.accept(ok)]: read the next rune into the buffer if it is one of [ok]. *)
Definition accept (ok : string) (s : ss) : bool * ss :=
  match input s with
  | EmptyString => (false, s)
  | String c rest =>
      if indexByte c ok
      then (true, {| input := rest; buf := buf s ++ String c EmptyString |})
      else (false, s)
  end.

(** [for s.accept(digits) {}]. *)
Fixpoint acceptAll (ok : string) (inp : string) (b : string) : ss :=
  match inp with
  | EmptyString => {| input := inp; buf := b |}
  | String c rest =>
      if indexByte c ok then acceptAll ok rest (b ++ String c EmptyString)
      else {| input := inp; buf := b |}
  end.

(** [scanBasePrefix], called for the verb [%v]: the digit set to go on
    with and whether a leading zero was read. *)
Definition scanBasePrefix (s : ss) : ss * string * bool :=
  if negb (peek "0" s) then (s, decimalDigits ++ "_", false)
  else
    let s := snd (accept "0" s) in
    if peek "bB" s then (snd (accept "bB" s), binaryDigits ++ "_", true)
    else if peek "oO" s then (snd (accept "oO" s), octalDigits ++ "_", true)
    else if peek "xX" s
         then (snd (accept "xX" s), hexadecimalDigits ++ "_", true)
         else (s, octalDigits ++ "_", true).

(** [scanNumber]. *)
Definition scanNumber (digits : string) (haveDigits : bool) (s : ss)
  : ScanError + ss :=
  if haveDigits then inr (acceptAll digits (input s) (buf s))
  else
    match input s with
    | EmptyString => inl OutOfInput
    | _ =>
        let '(ok, s1) := accept digits s in
        if ok then inr (acceptAll digits (input s1) (buf s1))
        else inl ExpectedInteger
    end.

(** [scanInt('v', 64)]: the value of the next integer token and what is
    left of the input. *)
Definition scanInt (s : ss) : ScanError + (Z * ss) :=
  let s := {| input := SkipSpace (input s); buf := buf s |} in
  match input s with
  | EmptyString => inl OutOfInput
  | _ =>
      let s := snd (accept sign s) in
      let '(s, digits, haveDigits) := scanBasePrefix s in
      match scanNumber digits haveDigits s with
      | inl e => inl e
      | inr s =>
          match strconv.ParseInt (buf s) 0 64 with
          | inl e => inl (NumErr e)
          | inr i => inr (i, s)
          end
      end
  end.

(** [fmt.Sscan(str, &id)] for [id] of type [int64]: one operand, scanned
    with the verb [%v]; nothing is required of the input after it. *)
Definition Sscan (str : string) : ScanError + Z :=
  match scanInt {| input := str; buf := EmptyString |} with
  | inl e => inl e
  | inr (i, _) => inr i
  end.

End fmt.

(** ** encoding/json: values, decoding into a Book, encoding *)

(** A JSON value as the decoder's scanner delivers it.  A number keeps
    what the decoder looks at: an integer literal is [JInt], a literal
    with a fraction or an exponent is [JFrac] with its text. *)
Inductive json :=
| JNull
| JBool (b : bool)
| JInt (z : Z)
| JFrac (lit : string)
| JStr (s : string)
| JArr (items : list json)
| JObj (members : list (string * json)).

(** Book - the model kept in PostgreSQL. *)
Record Book := mkBook {
  ID : Z;          (* int64 `json:"id"` *)
  Title : string;  (* `json:"title"` *)
  Author : string; (* `json:"author"` *)
  Year : Z         (* int `json:"year"` *)
}.

(** [var b Book]. *)
Definition zeroBook : Book := mkBook 0 "" "" 0.

Definition minInt64 : Z := - 2 ^ 63.
Definition maxInt64 : Z := 2 ^ 63 - 1.

Definition inInt64 (z : Z) : bool := (minInt64 <=? z) && (z <=? maxInt64).

Inductive Field := FID | FTitle | FAuthor | FYear.

(** Object keys are matched to field names exactly or, failing that,
    under case folding; the four names are lower-case ASCII letters
    none of which has a fold outside ASCII. *)
Definition foldByte (c : ascii) : ascii :=
  let b := code c in
  if (65 <=? b) && (b <=? 90) then chr (b + 32) else c.

Fixpoint foldName (s : string) : string :=
  match s with
  | EmptyString => EmptyString
  | String c rest => String (foldByte c) (foldName rest)
  end.

Definition fieldOf (key : string) : option Field :=
  let k := foldName key in
  if String.eqb k "id" then Some FID
  else if String.eqb k "title" then Some FTitle
  else if String.eqb k "author" then Some FAuthor
  else if String.eqb k "year" then Some FYear
  else None.

(** Storing one member's value into its field; [None] is an
    [UnmarshalTypeError].  A JSON null leaves the field as it is. *)
Definition setField (f : Field) (v : json) (b : Book) : option Book :=
  match f, v with
  | _, JNull => Some b
  | FID, JInt z =>
      if inInt64 z then Some (mkBook z (Title b) (Author b) (Year b))
      else None
  | FYear, JInt z =>
      if inInt64 z then Some (mkBook (ID b) (Title b) (Author b) z)
      else None
  | FTitle, JStr s => Some (mkBook (ID b) s (Author b) (Year b))
  | FAuthor, JStr s => Some (mkBook (ID b) (Title b) s (Year b))
  | _, _ => None
  end.

(** The members of an object in order: a later duplicate overwrites, an
    unknown key is skipped, and after a type error decoding goes on
    with the error saved ([bad]). *)
Fixpoint decodeMembers (members : list (string * json)) (b : Book) (bad : bool)
  : Book * bool :=
  match members with
  | [] => (b, bad)
  | (key, v) :: rest =>
      match fieldOf key with
      | None => decodeMembers rest b bad
      | Some f =>
          match setField f v b with
          | Some b' => decodeMembers rest b' bad
          | None => decodeMembers rest b true
          end
      end
  end.

Inductive DecodeError := SyntaxError | UnmarshalTypeError.

(** [json.NewDecoder(r.Body).Decode(&b)].  [body] is the first JSON
    value of the request body, [None] when the body does not begin
    with a well-formed one (an empty body included). *)
Definition Decode (body : option json) (b : Book) : DecodeError + Book :=
  match body with
  | None => inl SyntaxError
  | Some JNull => inr b
  | Some (JObj members) =>
      let '(b', bad) := decodeMembers members b false in
      if bad then inl UnmarshalTypeError else inr b'
  | Some _ => inl UnmarshalTypeError
  end.

(** A slice: [None] is nil. *)
Definition slice (A : Type) : Type := option (list A).

Definition append {A : Type} (s : slice A) (a : A) : slice A :=
  match s with
  | None => Some [a]
  | Some l => Some (l ++ [a])%list
  end.

(** What [Encode] writes, as a JSON value: the fields of a Book in
    declaration order under their tags.  This is the value before it is
    turned into text; a [JStr] holds the Go string handed to the
    encoder, which writes it as a JSON string literal (escaping what
    JSON requires and writing a byte that is not valid UTF-8 as U+FFFD)
    and ends the text with a newline. *)
Definition encodeBook (b : Book) : json :=
  JObj [("id", JInt (ID b)); ("title", JStr (Title b));
        ("author", JStr (Author b)); ("year", JInt (Year b))].

(** A nil slice is encoded as null, any other slice as an array. *)
Definition encodeBooks (books : slice Book) : json :=
  match books with
  | None => JNull
  | Some l => JArr (map encodeBook l)
  end.

(** ** net/http: requests and responses *)

(** The parts of [*http.Request] the handlers read. *)
Record Request := mkRequest {
  Method : string;
  Path : string;          (* r.URL.Path *)
  Body : option json
}.

Inductive Payload :=
| Text (s : string)
| Json (j : json).

Record Response := mkResponse {
  Status : Z;
  ContentType : option string;  (* the Content-Type header when set *)
  Written : Payload
}.

Definition StatusOK : Z := 200.
Definition StatusBadRequest : Z := 400.
Definition StatusNotFound : Z := 404.
Definition StatusMethodNotAllowed : Z := 405.
Definition StatusInternalServerError : Z := 500.

(** [http.Error(w, msg, code)]. *)
Definition httpError (msg : string) (code : Z) : Response :=
  mkResponse code (Some "text/plain; charset=utf-8") (Text (msg ++ nl)).

(** [w.Header().Set("Content-Type", "application/json")] and
    [json.NewEncoder(w).Encode(v)]: the first write sends status 200. *)
Definition writeJSON (j : json) : Response :=
  mkResponse StatusOK (Some "application/json") (Json j).

(** [w.WriteHeader(http.StatusOK)] and [fmt.Fprintf(w, ...)]. *)
Definition writeText (s : string) : Response :=
  mkResponse StatusOK None (Text s).

(** ** The path-ID extractor *)

Definition booksPrefix : string := "/books/".

(** [splitPath]: [path[len("/books/"):]] panics when the path is shorter
    than the prefix. *)
Definition splitPath (path : string) : option (list string) :=
  if len path <? len booksPrefix then None
  else Some [""; "books"; drop (String.length booksPrefix) path].

Inductive error :=
| BadPath (path : string)
| ScanFailure (e : fmt.ScanError).

(** [parseIDFromURL]: [None] when [splitPath] panics. *)
Definition parseIDFromURL (r : Request) : option (error + Z) :=
  match splitPath (Path r) with
  | None => None
  | Some parts =>
      if Z.of_nat (List.length parts) <? 3 then Some (inl (BadPath (Path r)))
      else
        match fmt.Sscan (nth 2 parts "") with
        | inl e => Some (inl (ScanFailure e))
        | inr id => Some (inr id)
        end
  end.

(** ** database/sql over the books table *)

(** The five statements the handlers send, with their parameters. *)
Inductive Stmt :=
| InsertBook (title author : string) (year : Z)
    (* INSERT INTO books (title, author, year) VALUES ($1, $2, $3) RETURNING id; *)
| SelectBooks
    (* SELECT id, title, author, year FROM books *)
| SelectBook (id : Z)
    (* SELECT id, title, author, year FROM books WHERE id = $1 *)
| UpdateBook (title author : string) (year id : Z)
    (* UPDATE books SET title=$1, author=$2, year=$3 WHERE id=$4 *)
| DeleteBook (id : Z).
    (* DELETE FROM books WHERE id=$1 *)

(** The database behind the shared handle [db]: the rows of [books] in
    the order a scan returns them, the value the [id] sequence hands out
    next ([id SERIAL PRIMARY KEY]), and the statements sent so far. *)
Record DB := mkDB {
  table : list Book;
  nextID : Z;
  issued : list Stmt
}.

(** What lies outside the program during one request.  [callErr] is the
    error the driver reports for the statement: a lost connection, the
    deadline of the 3-second context, a value PostgreSQL refuses for
    its column (an id or a year outside INT, a title or an author too
    long for VARCHAR(255) otherwise than by spaces at its end).
    [afterCommit] tells, for a call reported failed, whether the server
    had carried the statement out all the same: the deadline can run
    out, or the connection be lost, after the commit and before the
    answer is read.  [rowsFault] concerns a result set read row by
    row: the [Scan] of row [n] fails, or [Next] gives up after [n] rows
    and leaves its error in [rows.Err()]. *)
Inductive RowsFault :=
| RowsFine
| ScanFailsAt (n : nat) (e : string)
| NextFailsAfter (n : nat) (e : string).

Record Driver := {
  callErr : option string;
  rowsFault : RowsFault;
  afterCommit : bool
}.

(** A driver whose failed calls, if any, have had no effect. *)
Definition mkDriver (e : option string) (fault : RowsFault) : Driver :=
  {| callErr := e; rowsFault := fault; afterCommit := false |}.

Definition healthy : Driver := mkDriver None RowsFine.

Inductive sqlerror :=
| ErrNoRows
| DriverError (msg : string).

(** [err.Error()], what [%v] prints. *)
Definition errorText (e : sqlerror) : string :=
  match e with
  | ErrNoRows => "sql: no rows in result set"
  | DriverError msg => msg
  end.

Definition issue (st : Stmt) (db : DB) : DB :=
  mkDB (table db) (nextID db) (issued db ++ [st]).

Definition hasID (id : Z) (b : Book) : bool := ID b =? id.

(** *** The columns [title VARCHAR(255)] and [author VARCHAR(255)] *)

(** A byte that continues a UTF-8 character (10xxxxxx). *)
Definition isContinuation (c : ascii) : bool :=
  (128 <=? code c) && (code c <=? 191).

(** The length of a text in characters, which is what the 255 of
    VARCHAR(255) counts (the database holding its text in UTF-8). *)
Fixpoint charLen (s : string) : nat :=
  match s with
  | EmptyString => O
  | String c rest =>
      if isContinuation c then charLen rest else S (charLen rest)
  end.

(** The first [n] characters of a text and what comes after them. *)
Fixpoint cutChars (n : nat) (s : string) : string * string :=
  match s with
  | EmptyString => (EmptyString, EmptyString)
  | String c rest =>
      if isContinuation c then
        let '(kept, excess) := cutChars n rest in (String c kept, excess)
      else
        match n with
        | O => (EmptyString, s)
        | S k =>
            let '(kept, excess) := cutChars k rest in (String c kept, excess)
        end
  end.

Fixpoint isSpaces (s : string) : bool :=
  match s with
  | EmptyString => true
  | String c rest => (code c =? 32) && isSpaces rest
  end.

(** What a VARCHAR(255) column keeps of a value assigned to it: the
    value itself when it has at most 255 characters; its first 255
    characters when all that follows them is spaces, which are cut
    without an error.  A longer value with anything else past the
    255th character is refused by PostgreSQL, so that it is stored by
    no statement that succeeds: this is among the errors of [callErr],
    and the function then leaves the value as it is. *)
Definition varchar255 (s : string) : string :=
  let '(kept, excess) := cutChars 255 s in
  if isSpaces excess then kept else s.

(** The INSERT as the server carries it out: the sequence hands out the
    id, the primary key refuses an id already in the table (the
    sequence has moved on all the same), and the columns keep what
    [varchar255] says. *)
Definition insertRow (db : DB) (title author : string) (year : Z)
  : DB * (sqlerror + Z) :=
  let id := nextID db in
  if existsb (hasID id) (table db)
  then (mkDB (table db) (id + 1) (issued db),
        inl (DriverError "pq: duplicate key value violates unique constraint"))
  else (mkDB (table db
              ++ [mkBook id (varchar255 title) (varchar255 author) year])
             (id + 1) (issued db),
        inr id).

(** [db.QueryRowContext(ctx, INSERT ..., title, author, year).Scan(&id)].
    A call the driver reports failed returns its error; the row is
    there or not according to [afterCommit]. *)
Definition insertReturningID (drv : Driver) (db : DB)
           (title author : string) (year : Z) : DB * (sqlerror + Z) :=
  let db := issue (InsertBook title author year) db in
  match callErr drv with
  | Some e =>
      (if afterCommit drv then fst (insertRow db title author year) else db,
       inl (DriverError e))
  | None => insertRow db title author year
  end.

(** A result set being read: what each further [Next] brings, and the
    error [rows.Err()] holds once [Next] has returned false. *)
Inductive Fetch :=
| Fetched (b : Book)
| Unscannable (e : string).

Record Rows := mkRows {
  pending : list Fetch;
  rowsErr : option string
}.

(** [db.QueryContext(ctx, SELECT ... FROM books)]. *)
Definition queryBooks (drv : Driver) (db : DB) : DB * (sqlerror + Rows) :=
  let db := issue SelectBooks db in
  match callErr drv with
  | Some e => (db, inl (DriverError e))
  | None =>
      (db,
       inr match rowsFault drv with
           | RowsFine => mkRows (map Fetched (table db)) None
           | ScanFailsAt n e =>
               mkRows (map Fetched (firstn n (table db))
                       ++ match skipn n (table db) with
                          | [] => []
                          | _ :: rest => Unscannable e :: map Fetched rest
                          end)
                      None
           | NextFailsAfter n e =>
               mkRows (map Fetched (firstn n (table db))) (Some e)
           end)
  end.

(** [db.QueryRowContext(ctx, SELECT ... WHERE id = $1, id).Scan(...)]:
    the first row with that id, [sql.ErrNoRows] when there is none. *)
Definition queryBook (drv : Driver) (db : DB) (id : Z)
  : DB * (sqlerror + Book) :=
  let db := issue (SelectBook id) db in
  match callErr drv with
  | Some e => (db, inl (DriverError e))
  | None =>
      match find (hasID id) (table db) with
      | None => (db, inl ErrNoRows)
      | Some b => (db, inr b)
      end
  end.

(** The UPDATE as the server carries it out, with the number of rows
    affected: the three columns of every row with the id are
    overwritten, the text columns keeping what [varchar255] says. *)
Definition updateRows (db : DB) (title author : string) (year id : Z)
  : DB * Z :=
  (mkDB (map (fun b => if hasID id b
                       then mkBook (ID b) (varchar255 title)
                                   (varchar255 author) year
                       else b)
             (table db))
        (nextID db) (issued db),
   Z.of_nat (List.length (filter (hasID id) (table db)))).

(** [db.ExecContext(ctx, UPDATE ..., title, author, year, id)] with the
    [RowsAffected] of its result. *)
Definition execUpdate (drv : Driver) (db : DB)
           (title author : string) (year id : Z) : DB * (sqlerror + Z) :=
  let db := issue (UpdateBook title author year id) db in
  match callErr drv with
  | Some e =>
      (if afterCommit drv then fst (updateRows db title author year id)
       else db,
       inl (DriverError e))
  | None =>
      let '(db', affected) := updateRows db title author year id in
      (db', inr affected)
  end.

(** The DELETE as the server carries it out, with the number of rows
    affected. *)
Definition deleteRows (db : DB) (id : Z) : DB * Z :=
  (mkDB (filter (fun b => negb (hasID id b)) (table db))
        (nextID db) (issued db),
   Z.of_nat (List.length (filter (hasID id) (table db)))).

(** [db.ExecContext(ctx, DELETE ..., id)] with its [RowsAffected]. *)
Definition execDelete (drv : Driver) (db : DB) (id : Z)
  : DB * (sqlerror + Z) :=
  let db := issue (DeleteBook id) db in
  match callErr drv with
  | Some e =>
      (if afterCommit drv then fst (deleteRows db id) else db,
       inl (DriverError e))
  | None =>
      let '(db', affected) := deleteRows db id in
      (db', inr affected)
  end.

(** ** The handlers *)

(** createBook - "Create": takes JSON with Title, Author, Year, adds a
    row to books and returns the book with its ID. *)
Definition createBook (drv : Driver) (db : DB) (r : Request) : DB * Response :=
  match Decode (Body r) zeroBook with
  | inl _ => (db, httpError "Невалидный JSON" StatusBadRequest)
  | inr b =>
      if String.eqb (Title b) "" || String.eqb (Author b) "" then
        (db, httpError "Не хватает полей Title или Author" StatusBadRequest)
      else
        let '(db', res) :=
          insertReturningID drv db (Title b) (Author b) (Year b) in
        match res with
        | inl err =>
            (db', httpError ("Ошибка добавления книги: " ++ errorText err)
                            StatusInternalServerError)
        | inr id =>
            (db', writeJSON (encodeBook
                               (mkBook id (Title b) (Author b) (Year b))))
        end
  end.

(** The loop [for rows.Next() { ... rows.Scan ... append }] of
    getAllBooks: the slice built, or the error of a failed [Scan]. *)
Fixpoint scanRows (pending : list Fetch) (books : slice Book)
  : string + slice Book :=
  match pending with
  | [] => inr books
  | Fetched b :: rest => scanRows rest (append books b)
  | Unscannable e :: _ => inl e
  end.

(** getAllBooks - "Read" (list): all the books.  [var books []Book] is
    a nil slice; [rows.Err()] is not consulted after the loop. *)
Definition getAllBooks (drv : Driver) (db : DB) (r : Request) : DB * Response :=
  let '(db', res) := queryBooks drv db in
  match res with
  | inl err =>
      (db', httpError ("Ошибка выборки книг: " ++ errorText err)
                      StatusInternalServerError)
  | inr rows =>
      match scanRows (pending rows) None with
      | inl e =>
          (db', httpError ("Ошибка чтения строки: " ++ e)
                          StatusInternalServerError)
      | inr books => (db', writeJSON (encodeBooks books))
      end
  end.

(** getBookByID - "Read" (one record). *)
Definition getBookByID (drv : Driver) (db : DB) (r : Request)
  : option (DB * Response) :=
  match parseIDFromURL r with
  | None => None
  | Some (inl _) => Some (db, httpError "Неверный ID" StatusBadRequest)
  | Some (inr id) =>
      let '(db', res) := queryBook drv db id in
      match res with
      | inl ErrNoRows =>
          Some (db', httpError "Книга не найдена" StatusNotFound)
      | inl err =>
          Some (db', httpError ("Ошибка выборки книги: " ++ errorText err)
                               StatusInternalServerError)
      | inr b => Some (db', writeJSON (encodeBook b))
      end
  end.

(** updateBookByID - "Update": empty fields are not checked. *)
Definition updateBookByID (drv : Driver) (db : DB) (r : Request)
  : option (DB * Response) :=
  match parseIDFromURL r with
  | None => None
  | Some (inl _) => Some (db, httpError "Неверный ID" StatusBadRequest)
  | Some (inr id) =>
      match Decode (Body r) zeroBook with
      | inl _ => Some (db, httpError "Невалидный JSON" StatusBadRequest)
      | inr b =>
          let '(db', res) :=
            execUpdate drv db (Title b) (Author b) (Year b) id in
          match res with
          | inl err =>
              Some (db', httpError ("Ошибка обновления: " ++ errorText err)
                                   StatusInternalServerError)
          | inr affected =>
              if affected =? 0 then
                Some (db', httpError "Книга с таким ID не найдена"
                                     StatusNotFound)
              else
                Some (db', writeText ("Книга " ++ strconv.FormatInt id
                                      ++ " успешно обновлена" ++ nl))
          end
      end
  end.

(** deleteBookByID - "Delete". *)
Definition deleteBookByID (drv : Driver) (db : DB) (r : Request)
  : option (DB * Response) :=
  match parseIDFromURL r with
  | None => None
  | Some (inl _) => Some (db, httpError "Неверный ID" StatusBadRequest)
  | Some (inr id) =>
      let '(db', res) := execDelete drv db id in
      match res with
      | inl err =>
          Some (db', httpError ("Ошибка удаления: " ++ errorText err)
                               StatusInternalServerError)
      | inr affected =>
          if affected =? 0 then
            Some (db', httpError "Книга с таким ID не найдена" StatusNotFound)
          else
            Some (db', writeText ("Книга " ++ strconv.FormatInt id
                                  ++ " успешно удалена" ++ nl))
      end
  end.

Definition MethodGet : string := "GET".
Definition MethodPost : string := "POST".
Definition MethodPut : string := "PUT".
Definition MethodDelete : string := "DELETE".

(** handleBooks - POST (create) and GET (list) on /books. *)
Definition handleBooks (drv : Driver) (db : DB) (r : Request) : DB * Response :=
  if String.eqb (Method r) MethodPost then createBook drv db r
  else if String.eqb (Method r) MethodGet then getAllBooks drv db r
  else (db, httpError "Метод не поддерживается" StatusMethodNotAllowed).

(** handleBookByID - GET, PUT and DELETE on /books/{id}. *)
Definition handleBookByID (drv : Driver) (db : DB) (r : Request)
  : option (DB * Response) :=
  if String.eqb (Method r) MethodGet then getBookByID drv db r
  else if String.eqb (Method r) MethodPut then updateBookByID drv db r
  else if String.eqb (Method r) MethodDelete then deleteBookByID drv db r
  else Some (db, httpError "Метод не поддерживается" StatusMethodNotAllowed).

(** ** Sequences of requests *)

(** One request as the server hands it to a handler, with what the
    driver does while it is served. *)
Inductive Call :=
| ToBooks (drv : Driver) (r : Request)
| ToBookByID (drv : Driver) (r : Request).

(** The database after a call; a handler that panics has sent nothing,
    and the server goes on. *)
Definition serve (db : DB) (c : Call) : DB :=
  match c with
  | ToBooks drv r => fst (handleBooks drv db r)
  | ToBookByID drv r =>
      match handleBookByID drv db r with
      | Some (db', _) => db'
      | None => db
      end
  end.

Definition serveAll (db : DB) (calls : list Call) : DB :=
  fold_left serve calls db.

(** A call that updates or deletes the book [id]. *)
Definition writesTo (id : Z) (c : Call) : bool :=
  match c with
  | ToBooks _ _ => false
  | ToBookByID _ r =>
      (String.eqb (Method r) MethodPut || String.eqb (Method r) MethodDelete)
      && match parseIDFromURL r with
         | Some (inr id') => id' =? id
         | _ => false
         end
  end.

(** ** Shapes of an id segment *)

(** Is the next byte of [s] a decimal digit? *)
Definition headDigit (s : string) : bool :=
  match s with
  | String c _ => indexByte c fmt.decimalDigits
  | EmptyString => false
  end.

(** Does [s], after leading white space and an optional sign, go on
    with a decimal digit? *)
Definition beginsWithDigit (s : string) : bool :=
  let s := fmt.SkipSpace s in
  headDigit match s with
            | String c rest => if indexByte c fmt.sign then rest else s
            | EmptyString => s
            end.

(** The two bounds [ParseUint] works with in base 10 and 64 bits:
    [maxUint64/10 + 1] and [1<<64 - 1]. *)
Definition cutoff10 : Z := 1844674407370955162.
Definition max64 : Z := 18446744073709551615.

Definition isDigit (c : ascii) : bool := (48 <=? code c) && (code c <=? 57).

Fixpoint allDigits (s : string) : bool :=
  match s with
  | EmptyString => true
  | String c rest => isDigit c && allDigits rest
  end.


(** ** os: the environment of the process *)

(** The environment variables: one that is not set is [None]. *)
Definition Environ : Type := string -> option string.

(** [os.Getenv(key)]: the value, empty when the variable is not set. *)
Definition Getenv (env : Environ) (key : string) : string :=
  match env key with
  | Some v => v
  | None => ""
  end.

(** getEnv - reading an environment variable with a default. *)
Definition getEnv (env : Environ) (key defVal : string) : string :=
  let val := Getenv env key in
  if String.eqb val "" then defVal else val.

(** ** Invariants of the table *)

(** No two rows share an id ([PRIMARY KEY]). *)
Definition uniqueIDs (db : DB) : Prop := NoDup (map ID (table db)).

(** The id sequence is ahead of every id in the table, as it is for a
    table whose rows all came from the sequence. *)
Definition sequenceAhead (db : DB) : Prop :=
  Forall (fun row => ID row < nextID db) (table db).

(** What one call can do to the table and to the sequence: nothing; a
    row inserted under the next id; an insert refused by the primary
    key, the sequence having moved; the rows of one id overwritten; the
    rows of one id removed. *)
Inductive Effect (db : DB) : list Book -> Z -> Prop :=
| Untouched : Effect db (table db) (nextID db)
| Inserted (title author : string) (year : Z) :
    existsb (hasID (nextID db)) (table db) = false ->
    Effect db (table db ++ [mkBook (nextID db) title author year])
           (nextID db + 1)
| Refused :
    existsb (hasID (nextID db)) (table db) = true ->
    Effect db (table db) (nextID db + 1)
| Updated (title author : string) (year id : Z) :
    Effect db
           (map (fun b => if hasID id b
                          then mkBook (ID b) title author year else b)
                (table db))
           (nextID db)
| Deleted (id : Z) :
    Effect db (filter (fun b => negb (hasID id b)) (table db)) (nextID db).

(** A call that can write: a POST to /books, a PUT or a DELETE to
    /books/{id}. *)
Definition mayWrite (c : Call) : bool :=
  match c with
  | ToBooks _ r => String.eqb (Method r) MethodPost
  | ToBookByID _ r =>
      String.eqb (Method r) MethodPut || String.eqb (Method r) MethodDelete
  end.

(** Does the text [tail] end the integer token that the decimal digits
    of [id] in front of it begin?  It does when it is empty or starts
    with a byte that is neither a digit nor an underscore and, after a
    lone zero, not the letter of a base prefix either. *)
Definition endsNumber (id : Z) (tail : string) : bool :=
  match tail with
  | EmptyString => true
  | String c _ =>
      negb (indexByte c (fmt.decimalDigits ++ "_"))
      && (negb (id =? 0) || negb (indexByte c "bBoOxX"))
  end.

(** Is there a member whose key selects the field called [name]? *)
Definition names (name : string) (members : list (string * json)) : bool :=
  existsb (fun kv => String.eqb (foldName (fst kv)) name) members.

(** A table of two books and a request body that names no title. *)
Definition twoBooks : DB :=
  mkDB [mkBook 1 "Golang Book" "John Doe" 2023; mkBook 2 "Dune" "Herbert" 1965]
       3 [].

Definition anonymous : json :=
  JObj [("name", JStr "Golang Book"); ("author", JStr "John Doe")].

(** ** Sample data *)

Definition emptyDB : DB := mkDB [] 1 [].

Definition golangBook : json :=
  JObj [("title", JStr "Golang Book"); ("author", JStr "John Doe");
        ("year", JInt 2023)].

Definition untitled : json :=
  JObj [("title", JStr ""); ("author", JStr "John Doe"); ("year", JInt 2023)].

Definition withID : json :=
  JObj [("id", JInt 77); ("title", JStr "Golang Book");
        ("author", JStr "John Doe"); ("year", JInt 2023)].

Definition post (j : json) : Request := mkRequest MethodPost "/books" (Some j).

Definition put (path : string) (j : json) : Request :=
  mkRequest MethodPut path (Some j).

Definition get (path : string) : Request := mkRequest MethodGet path None.

(** Text of [n] copies of a byte. *)
Fixpoint replicate (n : nat) (c : ascii) : string :=
  match n with
  | O => EmptyString
  | S k => String c (replicate k c)
  end.

(** A title of 255 letters followed by one space, and a book under it. *)
Definition paddedTitle : string := replicate 255 "a" ++ " ".

Definition paddedBook : json :=
  JObj [("title", JStr paddedTitle); ("author", JStr "John Doe");
        ("year", JInt 2023)].

(** Bodies whose id is not an integer of the 64-bit range. *)
Definition withTextID : json :=
  JObj [("id", JStr "77"); ("title", JStr "Golang Book");
        ("author", JStr "John Doe"); ("year", JInt 2023)].

Definition withFractionID : json :=
  JObj [("id", JFrac "1.5"); ("title", JStr "Golang Book");
        ("author", JStr "John Doe"); ("year", JInt 2023)].

Definition withHugeID : json :=
  JObj [("id", JInt 9223372036854775808); ("title", JStr "Golang Book");
        ("author", JStr "John Doe"); ("year", JInt 2023)].

(** The table after the request of the README has been served once. *)
Definition oneBook : DB := fst (createBook healthy emptyDB (post golangBook)).

(** * Properties *)

(** ** Decoding and the table *)

Lemma eqb_empty (s : string) : String.eqb s "" = true <-> s = "".
Proof. apply String.eqb_eq. Qed.

Lemma issue_table st db : table (issue st db) = table db.
Proof. reflexivity. Qed.

(** The database after each of the three writing calls: the statement
    is in the log, and either nothing else has changed or the server
    has carried the statement out; a result without error comes with
    the statement carried out. *)
Lemma insertReturningID_after drv db t a y db' res :
  insertReturningID drv db t a y = (db', res) ->
  (db' = issue (InsertBook t a y) db
   \/ (existsb (hasID (nextID db)) (table db) = true
       /\ db' = mkDB (table db) (nextID db + 1)
                     (issued db ++ [InsertBook t a y]))
   \/ (existsb (hasID (nextID db)) (table db) = false
       /\ db' = mkDB (table db
                      ++ [mkBook (nextID db) (varchar255 t) (varchar255 a) y])
                     (nextID db + 1) (issued db ++ [InsertBook t a y])))
  /\ forall id,
       res = inr id ->
       callErr drv = None /\ id = nextID db
       /\ existsb (hasID (nextID db)) (table db) = false
       /\ db' = mkDB (table db
                      ++ [mkBook (nextID db) (varchar255 t) (varchar255 a) y])
                     (nextID db + 1) (issued db ++ [InsertBook t a y]).
Proof.
  unfold insertReturningID, insertRow. cbn [nextID issue table issued].
  destruct (callErr drv) as [e|].
  - destruct (afterCommit drv);
      [destruct (existsb (hasID (nextID db)) (table db)) eqn:E|];
      cbn [fst]; intros [= <- <-]; (split; [auto|discriminate]).
  - destruct (existsb (hasID (nextID db)) (table db)) eqn:E;
      intros [= <- <-]; (split; [auto|]).
    + discriminate.
    + intros id [= <-]. auto.
Qed.

Lemma execUpdate_after drv db t a y id db' res :
  execUpdate drv db t a y id = (db', res) ->
  (db' = issue (UpdateBook t a y id) db
   \/ db' = mkDB (map (fun b => if hasID id b
                                then mkBook (ID b) (varchar255 t)
                                            (varchar255 a) y
                                else b)
                      (table db))
                 (nextID db) (issued db ++ [UpdateBook t a y id]))
  /\ forall n,
       res = inr n ->
       callErr drv = None
       /\ n = Z.of_nat (List.length (filter (hasID id) (table db)))
       /\ db' = mkDB (map (fun b => if hasID id b
                                    then mkBook (ID b) (varchar255 t)
                                                (varchar255 a) y
                                    else b)
                          (table db))
                     (nextID db) (issued db ++ [UpdateBook t a y id]).
Proof.
  unfold execUpdate, updateRows. cbn [nextID issue table issued].
  destruct (callErr drv) as [e|].
  - destruct (afterCommit drv); cbn [fst]; intros [= <- <-];
      (split; [auto|discriminate]).
  - intros [= <- <-]. split; [auto|]. intros n [= <-]. auto.
Qed.

Lemma execDelete_after drv db id db' res :
  execDelete drv db id = (db', res) ->
  (db' = issue (DeleteBook id) db
   \/ db' = mkDB (filter (fun b => negb (hasID id b)) (table db))
                 (nextID db) (issued db ++ [DeleteBook id]))
  /\ forall n,
       res = inr n ->
       callErr drv = None
       /\ n = Z.of_nat (List.length (filter (hasID id) (table db)))
       /\ db' = mkDB (filter (fun b => negb (hasID id b)) (table db))
                     (nextID db) (issued db ++ [DeleteBook id]).
Proof.
  unfold execDelete, deleteRows. cbn [nextID issue table issued].
  destruct (callErr drv) as [e|].
  - destruct (afterCommit drv); cbn [fst]; intros [= <- <-];
      (split; [auto|discriminate]).
  - intros [= <- <-]. split; [auto|]. intros n [= <-]. auto.
Qed.

(** The handlers hand on the database their one call leaves. *)
Lemma createBook_db drv db r :
  fst (createBook drv db r) = db
  \/ exists b,
       Decode (Body r) zeroBook = inr b
       /\ fst (createBook drv db r)
          = fst (insertReturningID drv db (Title b) (Author b) (Year b)).
Proof.
  unfold createBook. destruct (Decode (Body r) zeroBook) as [e|b]; [now left|].
  destruct (_ || _); [now left|]. right. exists b. split; [reflexivity|].
  destruct (insertReturningID _ _ _ _ _) as [db' [err|id]]; reflexivity.
Qed.

Lemma updateBookByID_db drv db r db' resp :
  updateBookByID drv db r = Some (db', resp) ->
  db' = db
  \/ exists id b,
       parseIDFromURL r = Some (inr id)
       /\ Decode (Body r) zeroBook = inr b
       /\ db' = fst (execUpdate drv db (Title b) (Author b) (Year b) id).
Proof.
  unfold updateBookByID. destruct (parseIDFromURL r) as [[e|id]|];
    [now intros [= <- _]; left| |discriminate].
  destruct (Decode (Body r) zeroBook) as [e|b]; [now intros [= <- _]; left|].
  intros H. right. exists id, b. split; [reflexivity|]. split; [reflexivity|].
  destruct (execUpdate _ _ _ _ _ _) as [db1 [err|n]]; cbn [fst].
  - now injection H as <- _.
  - destruct (n =? 0); now injection H as <- _.
Qed.

Lemma deleteBookByID_db drv db r db' resp :
  deleteBookByID drv db r = Some (db', resp) ->
  db' = db
  \/ exists id,
       parseIDFromURL r = Some (inr id)
       /\ db' = fst (execDelete drv db id).
Proof.
  unfold deleteBookByID. destruct (parseIDFromURL r) as [[e|id]|];
    [now intros [= <- _]; left| |discriminate].
  intros H. right. exists id. split; [reflexivity|].
  destruct (execDelete _ _ _) as [db1 [err|n]]; cbn [fst].
  - now injection H as <- _.
  - destruct (n =? 0); now injection H as <- _.
Qed.

Lemma getAllBooks_db drv db r : fst (getAllBooks drv db r) = issue SelectBooks db.
Proof.
  unfold getAllBooks, queryBooks. destruct (callErr drv); [reflexivity|].
  destruct (scanRows _ _); reflexivity.
Qed.

Lemma getBookByID_db drv db r db' resp :
  getBookByID drv db r = Some (db', resp) ->
  db' = db \/ exists id, db' = issue (SelectBook id) db.
Proof.
  unfold getBookByID. destruct (parseIDFromURL r) as [[e|id]|];
    [now intros [= <- _]; left| |discriminate].
  intros H. right. exists id. revert H. unfold queryBook.
  destruct (callErr drv); [now intros [= <- _]|].
  destruct (find _ _); now intros [= <- _].
Qed.

Lemma find_app_found {A} (p : A -> bool) l l' a :
  find p l = Some a -> find p (l ++ l') = Some a.
Proof.
  induction l as [|x l IH]; simpl; [discriminate|].
  destruct (p x); auto.
Qed.

Lemma find_hasID_none id l :
  existsb (hasID id) l = false -> find (hasID id) l = None.
Proof.
  induction l as [|x l IH]; simpl; [reflexivity|].
  destruct (hasID id x); simpl; [discriminate|exact IH].
Qed.

Lemma find_app_new id l b :
  existsb (hasID id) l = false -> hasID id b = true ->
  find (hasID id) (l ++ [b]) = Some b.
Proof.
  intros Hl Hb. induction l as [|x l IH]; simpl in *.
  - now rewrite Hb.
  - destruct (hasID id x); simpl in *; [discriminate|auto].
Qed.

Lemma hasID_other id id' b : id' <> id -> hasID id' b = true -> hasID id b = false.
Proof.
  unfold hasID. intros Hne H. apply Z.eqb_eq in H. apply Z.eqb_neq. congruence.
Qed.

Lemma find_update_other id id' (f : Book -> Book) l :
  id' <> id -> (forall b, ID (f b) = ID b) ->
  find (hasID id) (map (fun b => if hasID id' b then f b else b) l)
  = find (hasID id) l.
Proof.
  intros Hne Hf. induction l as [|x l IH]; simpl; [reflexivity|].
  destruct (hasID id' x) eqn:E'.
  - rewrite (hasID_other id id' x Hne E').
    assert (hasID id (f x) = false) as ->; [|exact IH].
    unfold hasID in *. rewrite Hf. apply Z.eqb_eq in E'. apply Z.eqb_neq.
    congruence.
  - destruct (hasID id x); [reflexivity|exact IH].
Qed.

Lemma find_delete_other id id' l :
  id' <> id ->
  find (hasID id) (filter (fun b => negb (hasID id' b)) l)
  = find (hasID id) l.
Proof.
  intros Hne. induction l as [|x l IH]; simpl; [reflexivity|].
  destruct (hasID id' x) eqn:E'; simpl.
  - rewrite (hasID_other id id' x Hne E'). exact IH.
  - destruct (hasID id x); [reflexivity|exact IH].
Qed.

Lemma filter_hasID_absent id l :
  (forall b, In b l -> ID b <> id) -> filter (hasID id) l = [].
Proof.
  induction l as [|x l IH]; intros H; simpl; [reflexivity|].
  unfold hasID at 1.
  destruct (ID x =? id) eqn:E.
  - apply Z.eqb_eq in E. exfalso. apply (H x); [now left|exact E].
  - apply IH. intros b Hb. apply H. now right.
Qed.

Lemma update_absent id (f : Book -> Book) l :
  (forall b, In b l -> ID b <> id) ->
  map (fun b => if hasID id b then f b else b) l = l.
Proof.
  induction l as [|x l IH]; intros H; simpl; [reflexivity|].
  unfold hasID at 1.
  destruct (ID x =? id) eqn:E.
  - apply Z.eqb_eq in E. exfalso. apply (H x); [now left|exact E].
  - f_equal. apply IH. intros b Hb. apply H. now right.
Qed.

Lemma scanRows_fetched l rest s :
  scanRows (map Fetched l ++ rest) s = scanRows rest (fold_left append l s).
Proof.
  revert s. induction l as [|x l IH]; intros s; simpl; [reflexivity|apply IH].
Qed.

Lemma append_all_some (l acc : list Book) :
  fold_left append l (Some acc) = Some (acc ++ l)%list.
Proof.
  revert acc. induction l as [|x l IH]; intros acc; simpl.
  - now rewrite app_nil_r.
  - rewrite IH. now rewrite <- app_assoc.
Qed.

Lemma append_all_nil (l : list Book) :
  fold_left append l None = match l with [] => None | _ => Some l end.
Proof.
  destruct l as [|x l]; simpl; [reflexivity|]. now rewrite append_all_some.
Qed.

Lemma skipn_cons_lt {A} (n : nat) (l : list A) x rest :
  skipn n l = x :: rest -> (n < List.length l)%nat.
Proof.
  revert l. induction n as [|n IH]; intros [|y l] H; simpl in *;
    try discriminate; try lia.
  apply IH in H. lia.
Qed.

Lemma prefix_split p s :
  String.prefix p s = true -> s = p ++ drop (String.length p) s.
Proof.
  revert s. induction p as [|a p IH]; intros s H.
  - reflexivity.
  - destruct s as [|b s]; simpl in H; [discriminate|].
    destruct (ascii_dec a b) as [->|]; [|discriminate].
    simpl. f_equal. now apply IH.
Qed.

Lemma length_append (a b : string) :
  String.length (a ++ b) = (String.length a + String.length b)%nat.
Proof. induction a; simpl; [reflexivity|now f_equal]. Qed.

Lemma drop_append (a b : string) : drop (String.length a) (a ++ b) = b.
Proof. induction a; simpl; [reflexivity|assumption]. Qed.

Lemma splitPath_prefixed suffix :
  splitPath (booksPrefix ++ suffix) = Some [""; "books"; suffix].
Proof.
  unfold splitPath, len. rewrite length_append.
  destruct (Z.ltb_spec (Z.of_nat (String.length booksPrefix + String.length suffix))
                       (Z.of_nat (String.length booksPrefix))) as [H|H]; [lia|].
  now rewrite drop_append.
Qed.

Lemma parseIDFromURL_prefixed m suffix body :
  parseIDFromURL (mkRequest m (booksPrefix ++ suffix) body)
  = Some match fmt.Sscan suffix with
         | inl e => inl (ScanFailure e)
         | inr id => inr id
         end.
Proof.
  unfold parseIDFromURL. cbn [Path]. rewrite splitPath_prefixed.
  cbn [List.length nth Z.of_nat]. destruct (fmt.Sscan suffix); reflexivity.
Qed.

(** ** The list handler *)

(** C1 (the code departs from the claim).  On an empty books table, with
    the query succeeding, getAllBooks answers 200 and writes the JSON
    value null: the nil slice [books] was never appended to.  The claim
    asks for an empty JSON array. *)
Theorem getAllBooks_empty_table_writes_null :
  forall (next : Z) (log : list Stmt) (fault : RowsFault) (r : Request),
    getAllBooks (mkDriver None fault) (mkDB [] next log) r
    = (mkDB [] next (log ++ [SelectBooks]), writeJSON JNull)
    /\ Status (writeJSON JNull) = StatusOK
    /\ JNull <> JArr [].
Proof.
  intros next log fault r. split; [|split; [reflexivity|discriminate]].
  destruct fault as [|n e|n e]; try reflexivity; destruct n; reflexivity.
Qed.

(** C10, the claim as it stands fails: when the iteration breaks before
    the first row has been scanned, the 200 response carries null, not
    an array of the rows scanned so far. *)
Lemma getAllBooks_iteration_error_before_first_row :
  getAllBooks (mkDriver None (NextFailsAfter 0 "unexpected EOF")) oneBook
              (get "/books")
  = (issue SelectBooks oneBook, writeJSON JNull)
  /\ table oneBook <> []
  /\ forall l, JNull <> JArr l.
Proof. repeat split; discriminate. Qed.

(** C10 (amended).  When [rows.Next] stops on an error after at least
    one row has been scanned, getAllBooks never looks at [rows.Err()]:
    it answers 200 with the JSON array of exactly the rows scanned
    before the error.  A 500 comes only from a failed query or from a
    failed [Scan] of a row. *)
Theorem getAllBooks_iteration_error_unchecked :
  (forall db r n e,
      (0 < n)%nat -> table db <> [] ->
      getAllBooks (mkDriver None (NextFailsAfter n e)) db r
      = (issue SelectBooks db,
         writeJSON (JArr (map encodeBook (firstn n (table db))))))
  /\ (forall drv db r,
         Status (snd (getAllBooks drv db r)) = StatusInternalServerError ->
         callErr drv <> None
         \/ exists n e, rowsFault drv = ScanFailsAt n e
                        /\ (n < List.length (table db))%nat).
Proof.
  split.
  - intros db r n e Hn Ht. unfold getAllBooks, queryBooks. cbn [callErr rowsFault pending mkDriver].
    rewrite issue_table.
    rewrite <- (app_nil_r (map Fetched _)), scanRows_fetched, append_all_nil.
    cbn [scanRows].
    destruct (table db) as [|x l]; [congruence|].
    destruct n as [|n]; [lia|]. reflexivity.
  - intros drv db r. unfold getAllBooks, queryBooks.
    destruct (callErr drv) as [e|] eqn:Hc; [intros _; left; discriminate|].
    rewrite issue_table. intros H. right.
    destruct (rowsFault drv) as [|n e|n e] eqn:Hf; cbn [pending] in H.
    + rewrite <- (app_nil_r (map Fetched _)), scanRows_fetched in H.
      cbn in H. discriminate.
    + rewrite scanRows_fetched in H.
      destruct (skipn n (table db)) as [|x rest] eqn:Hs.
      * cbn in H. discriminate.
      * exists n, e. split; [reflexivity|]. eapply skipn_cons_lt; eauto.
    + rewrite <- (app_nil_r (map Fetched _)), scanRows_fetched in H.
      cbn in H. discriminate.
Qed.

Lemma getAllBooks_iteration_error_unchecked_witness :
  getAllBooks (mkDriver None (NextFailsAfter 1 "unexpected EOF")) oneBook
              (get "/books")
  = (issue SelectBooks oneBook,
     writeJSON (JArr (map encodeBook (firstn 1 (table oneBook))))).
Proof.
  apply (proj1 getAllBooks_iteration_error_unchecked); [lia|discriminate].
Defined.

(** ** The path-ID extractor: shape of the breakdown *)

(** C7.  On every path that starts with /books/, splitPath does not
    panic and returns the three elements "", "books" and the rest of
    the path; parseIDFromURL therefore never takes its branch for a
    breakdown of fewer than three elements and goes on to scan the
    third one. *)
Theorem splitPath_routed_path :
  forall path : string,
    String.prefix booksPrefix path = true ->
    exists suffix : string,
      path = booksPrefix ++ suffix
      /\ splitPath path = Some [""; "books"; suffix]
      /\ forall m body,
           parseIDFromURL (mkRequest m path body)
           = Some match fmt.Sscan suffix with
                  | inl e => inl (ScanFailure e)
                  | inr id => inr id
                  end.
Proof.
  intros path H. apply prefix_split in H.
  remember (drop (String.length booksPrefix) path) as suffix eqn:E.
  clear E. subst path. exists suffix.
  split; [reflexivity|]. split.
  - apply splitPath_prefixed.
  - intros m body. apply parseIDFromURL_prefixed.
Qed.

Lemma splitPath_routed_path_witness :
  exists suffix : string,
    "/books/123" = booksPrefix ++ suffix
    /\ splitPath "/books/123" = Some [""; "books"; suffix]
    /\ forall m body,
         parseIDFromURL (mkRequest m "/books/123" body)
         = Some match fmt.Sscan suffix with
                | inl e => inl (ScanFailure e)
                | inr id => inr id
                end.
Proof. apply (splitPath_routed_path "/books/123"). reflexivity. Defined.

(** The breakdown has three elements whenever there is one at all. *)
Lemma splitPath_three path parts :
  splitPath path = Some parts -> List.length parts = 3%nat.
Proof.
  unfold splitPath. destruct (len path <? len booksPrefix); [discriminate|].
  intros [= <-]. reflexivity.
Qed.

(** ** Create *)

Lemma createBook_decoded drv db r b :
  Decode (Body r) zeroBook = inr b ->
  createBook drv db r
  = if String.eqb (Title b) "" || String.eqb (Author b) "" then
      (db, httpError "Не хватает полей Title или Author" StatusBadRequest)
    else
      let '(db', res) :=
        insertReturningID drv db (Title b) (Author b) (Year b) in
      match res with
      | inl err =>
          (db', httpError ("Ошибка добавления книги: " ++ errorText err)
                          StatusInternalServerError)
      | inr id =>
          (db', writeJSON (encodeBook
                             (mkBook id (Title b) (Author b) (Year b))))
      end.
Proof. intros H. unfold createBook. now rewrite H. Qed.

Lemma createBook_undecodable drv db r e :
  Decode (Body r) zeroBook = inl e ->
  createBook drv db r = (db, httpError "Невалидный JSON" StatusBadRequest).
Proof. intros H. unfold createBook. now rewrite H. Qed.

Lemma nonempty_fields b :
  Title b <> "" -> Author b <> "" ->
  String.eqb (Title b) "" || String.eqb (Author b) "" = false.
Proof.
  intros Ht Ha. apply orb_false_iff.
  split; apply String.eqb_neq; assumption.
Qed.

(** C2.  A create request none of whose decodings has both a non-empty
    title and a non-empty author (the body decodes to a book whose
    title or author is the empty string, or it does not decode at all)
    is answered 400, and the database is left as it was: no statement
    has been sent and the table is unchanged. *)
Theorem createBook_empty_field_rejected :
  forall drv db r,
    (forall b, Decode (Body r) zeroBook = inr b ->
               Title b = "" \/ Author b = "") ->
    exists resp,
      createBook drv db r = (db, resp)
      /\ Status resp = StatusBadRequest
      /\ issued (fst (createBook drv db r)) = issued db
      /\ table (fst (createBook drv db r)) = table db.
Proof.
  intros drv db r He.
  destruct (Decode (Body r) zeroBook) as [e|b] eqn:Hd.
  - rewrite (createBook_undecodable drv db r e Hd). eexists. repeat split.
  - rewrite (createBook_decoded drv db r b Hd).
    assert (String.eqb (Title b) "" || String.eqb (Author b) "" = true) as ->.
    { apply orb_true_iff. destruct (He b eq_refl) as [H|H]; [left|right];
        now apply String.eqb_eq. }
    eexists. repeat split.
Qed.

Lemma createBook_empty_field_rejected_witness :
  exists resp,
    createBook healthy oneBook (post untitled) = (oneBook, resp)
    /\ Status resp = StatusBadRequest
    /\ issued (fst (createBook healthy oneBook (post untitled))) = issued oneBook
    /\ table (fst (createBook healthy oneBook (post untitled))) = table oneBook.
Proof.
  apply (createBook_empty_field_rejected healthy oneBook (post untitled)).
  intros b Hb. injection Hb as <-. left. reflexivity.
Defined.

(** C5.  A create request whose body decodes to a non-empty title and
    author, and whose insert succeeds, is answered 200 with the JSON
    encoding of the book: its id is the identifier the database
    generated (the next value of the sequence), its title, author and
    year are those of the request. *)
Theorem createBook_success_response :
  forall drv db r b db' id,
    Decode (Body r) zeroBook = inr b ->
    Title b <> "" -> Author b <> "" ->
    insertReturningID drv db (Title b) (Author b) (Year b) = (db', inr id) ->
    createBook drv db r
    = (db', writeJSON (JObj [("id", JInt id); ("title", JStr (Title b));
                             ("author", JStr (Author b));
                             ("year", JInt (Year b))]))
    /\ Status (snd (createBook drv db r)) = StatusOK
    /\ id = nextID db.
Proof.
  intros drv db r b db' id Hd Ht Ha Hi.
  rewrite (createBook_decoded drv db r b Hd), (nonempty_fields b Ht Ha), Hi.
  repeat split. revert Hi. unfold insertReturningID, insertRow.
  destruct (callErr drv); [discriminate|]. cbn [nextID issue table].
  destruct (existsb _ _); [discriminate|]. now intros [= _ <-].
Qed.

Lemma createBook_success_response_witness :
  createBook healthy emptyDB (post golangBook)
  = (oneBook,
     writeJSON (JObj [("id", JInt 1); ("title", JStr "Golang Book");
                      ("author", JStr "John Doe"); ("year", JInt 2023)]))
  /\ Status (snd (createBook healthy emptyDB (post golangBook))) = StatusOK
  /\ 1 = nextID emptyDB.
Proof.
  apply (createBook_success_response healthy emptyDB (post golangBook)
           (mkBook 0 "Golang Book" "John Doe" 2023) oneBook 1);
    [reflexivity|discriminate|discriminate|reflexivity].
Defined.

(** C9, the claim as it stands fails: Book.ID is an int64, and a body
    whose id is a JSON string, a number with a fraction or an integer
    outside the 64-bit range does not decode.  Such a request is
    answered 400 with nothing inserted, while the same body without
    the id is answered 200: the id has not been ignored. *)
Lemma createBook_rejects_ill_typed_id :
  createBook healthy emptyDB (post withTextID)
  = (emptyDB, httpError "Невалидный JSON" StatusBadRequest)
  /\ createBook healthy emptyDB (post withFractionID)
     = (emptyDB, httpError "Невалидный JSON" StatusBadRequest)
  /\ createBook healthy emptyDB (post withHugeID)
     = (emptyDB, httpError "Невалидный JSON" StatusBadRequest)
  /\ Status (snd (createBook healthy emptyDB (post golangBook))) = StatusOK.
Proof. repeat split. Qed.

(** C9 (amended).  In a create request whose body decodes into a Book
    (its id, if it has one, being null or an integer of the 64-bit
    range), the id plays no part: two requests that decode to the same
    title, author and year are served alike whatever their ids; the
    insert statement carries the title, the author and the year only;
    the id of a 200 response is the one the database generated; and
    with a non-empty title and author, no driver error and the next id
    free, the response is that 200. *)
Theorem createBook_ignores_request_id :
  forall drv db r1 r2 b1 b2,
    Decode (Body r1) zeroBook = inr b1 ->
    Decode (Body r2) zeroBook = inr b2 ->
    Title b1 = Title b2 -> Author b1 = Author b2 -> Year b1 = Year b2 ->
    createBook drv db r1 = createBook drv db r2
    /\ (forall db' resp,
          createBook drv db r1 = (db', resp) ->
          Status resp = StatusOK ->
          issued db'
          = (issued db ++ [InsertBook (Title b1) (Author b1) (Year b1)])%list
          /\ Written resp
             = Json (encodeBook
                       (mkBook (nextID db) (Title b1) (Author b1) (Year b1))))
    /\ (Title b1 <> "" -> Author b1 <> "" ->
        callErr drv = None ->
        existsb (hasID (nextID db)) (table db) = false ->
        snd (createBook drv db r1)
        = writeJSON (JObj [("id", JInt (nextID db));
                           ("title", JStr (Title b1));
                           ("author", JStr (Author b1));
                           ("year", JInt (Year b1))])
        /\ issued (fst (createBook drv db r1))
           = (issued db
              ++ [InsertBook (Title b1) (Author b1) (Year b1)])%list).
Proof.
  intros drv db r1 r2 b1 b2 H1 H2 Ht Ha Hy.
  rewrite (createBook_decoded drv db r1 b1 H1),
          (createBook_decoded drv db r2 b2 H2), Ht, Ha, Hy.
  split; [reflexivity|]. split.
  - intros db' resp.
    destruct (String.eqb (Title b2) "" || String.eqb (Author b2) "").
    { intros [= <- <-]. discriminate. }
    destruct (insertReturningID drv db (Title b2) (Author b2) (Year b2))
      as [db1 [err|id]] eqn:E; intros [= <- <-]; [discriminate|].
    apply insertReturningID_after in E as [_ E].
    destruct (E id eq_refl) as (_ & -> & _ & ->).
    intros _. split; reflexivity.
  - intros Hnt Hna Hc He.
    rewrite (nonempty_fields b2 Hnt Hna).
    unfold insertReturningID, insertRow. rewrite Hc.
    cbn [nextID issue table issued]. rewrite He. split; reflexivity.
Qed.

Lemma createBook_ignores_request_id_witness :
  createBook healthy emptyDB (post withID)
  = createBook healthy emptyDB (post golangBook)
  /\ snd (createBook healthy emptyDB (post withID))
     = writeJSON (JObj [("id", JInt 1); ("title", JStr "Golang Book");
                        ("author", JStr "John Doe"); ("year", JInt 2023)])
  /\ issued (fst (createBook healthy emptyDB (post withID)))
     = (issued emptyDB ++ [InsertBook "Golang Book" "John Doe" 2023])%list.
Proof.
  pose proof (createBook_ignores_request_id healthy emptyDB
                (post withID) (post golangBook)
                (mkBook 77 "Golang Book" "John Doe" 2023)
                (mkBook 0 "Golang Book" "John Doe" 2023)
                eq_refl eq_refl eq_refl eq_refl eq_refl) as [He [_ Hok]].
  split; [exact He|].
  apply Hok; [discriminate|discriminate|reflexivity|reflexivity].
Defined.

(** ** Update *)

Lemma updateBookByID_decoded drv db r id b :
  parseIDFromURL r = Some (inr id) ->
  Decode (Body r) zeroBook = inr b ->
  updateBookByID drv db r
  = let '(db', res) := execUpdate drv db (Title b) (Author b) (Year b) id in
    match res with
    | inl err =>
        Some (db', httpError ("Ошибка обновления: " ++ errorText err)
                             StatusInternalServerError)
    | inr affected =>
        if affected =? 0 then
          Some (db', httpError "Книга с таким ID не найдена" StatusNotFound)
        else
          Some (db', writeText ("Книга " ++ strconv.FormatInt id
                                ++ " успешно обновлена" ++ nl))
    end.
Proof. intros Hp Hd. unfold updateBookByID. now rewrite Hp, Hd. Qed.

Lemma affected_zero id l :
  Z.of_nat (List.length (filter (hasID id) l)) = 0
  <-> forall b, In b l -> ID b <> id.
Proof.
  split.
  - intros H b Hb Hid.
    assert (In b (filter (hasID id) l)) as Hin.
    { apply filter_In. split; [exact Hb|]. now apply Z.eqb_eq. }
    destruct (filter (hasID id) l); [contradiction|]. simpl in H. lia.
  - intros H. now rewrite filter_hasID_absent.
Qed.

(** C3.  An update request whose id parses and whose body decodes, for
    an id that no row of the table has, leaves the table as it was, and
    is answered 404 (once the statement has been executed, that is,
    unless the driver reports an error of its own). *)
Theorem updateBookByID_unknown_id_404 :
  forall drv db r id b,
    parseIDFromURL r = Some (inr id) ->
    Decode (Body r) zeroBook = inr b ->
    (forall row, In row (table db) -> ID row <> id) ->
    exists db' resp,
      updateBookByID drv db r = Some (db', resp)
      /\ table db' = table db
      /\ (callErr drv = None -> Status resp = StatusNotFound).
Proof.
  intros drv db r id b Hp Hd Hno.
  rewrite (updateBookByID_decoded drv db r id b Hp Hd).
  unfold execUpdate, updateRows. destruct (callErr drv) as [e|].
  { eexists. eexists. split; [reflexivity|].
    split; [|discriminate].
    destruct (afterCommit drv); [|reflexivity].
    cbn [fst table issue]. now apply update_absent. }
  rewrite issue_table.
  rewrite (proj2 (affected_zero id (table db)) Hno).
  cbn [Z.eqb]. eexists. eexists. split; [reflexivity|].
  split; [|reflexivity]. cbn [table]. now apply update_absent.
Qed.

Lemma updateBookByID_unknown_id_404_witness :
  exists db' resp,
    updateBookByID healthy oneBook (put "/books/2" golangBook)
    = Some (db', resp)
    /\ table db' = table oneBook
    /\ (callErr healthy = None -> Status resp = StatusNotFound).
Proof.
  apply (updateBookByID_unknown_id_404 healthy oneBook
           (put "/books/2" golangBook) 2
           (mkBook 0 "Golang Book" "John Doe" 2023));
    [reflexivity|reflexivity|].
  intros row [<-|[]]. discriminate.
Defined.

(** C8.  An update request whose id parses and whose body decodes is
    never answered 400, empty title or author or not: the update
    statement is sent with the three fields as decoded, and once it has
    run every row with that id carries exactly these three values (as
    the VARCHAR(255) columns keep them), the other rows being left
    alone; the answer is 200 when there was such a row. *)
Theorem updateBookByID_no_emptiness_check :
  forall drv db r id b,
    parseIDFromURL r = Some (inr id) ->
    Decode (Body r) zeroBook = inr b ->
    exists db' resp,
      updateBookByID drv db r = Some (db', resp)
      /\ Status resp <> StatusBadRequest
      /\ issued db'
         = (issued db ++ [UpdateBook (Title b) (Author b) (Year b) id])%list
      /\ (callErr drv = None ->
          table db'
          = map (fun row =>
                   if ID row =? id
                   then mkBook (ID row) (varchar255 (Title b))
                               (varchar255 (Author b)) (Year b)
                   else row)
                (table db)
          /\ ((exists row, In row (table db) /\ ID row = id) ->
              Status resp = StatusOK)).
Proof.
  intros drv db r id b Hp Hd.
  rewrite (updateBookByID_decoded drv db r id b Hp Hd).
  unfold execUpdate, updateRows. destruct (callErr drv) as [e|].
  - eexists. eexists. split; [reflexivity|].
    split; [discriminate|]. split; [|discriminate].
    destruct (afterCommit drv); reflexivity.
  - rewrite issue_table.
    destruct (Z.of_nat (List.length (filter (hasID id) (table db))) =? 0) eqn:E.
    + eexists. eexists. split; [reflexivity|].
      split; [discriminate|]. split; [reflexivity|]. intros _.
      split; [reflexivity|]. intros (row & Hin & Hid).
      apply Z.eqb_eq in E. exfalso.
      exact (proj1 (affected_zero id (table db)) E row Hin Hid).
    + eexists. eexists. split; [reflexivity|].
      split; [discriminate|]. split; [reflexivity|]. intros _.
      split; reflexivity.
Qed.

Lemma updateBookByID_no_emptiness_check_witness :
  exists db' resp,
    updateBookByID healthy oneBook (put "/books/1" untitled) = Some (db', resp)
    /\ Status resp <> StatusBadRequest
    /\ issued db'
       = (issued oneBook ++ [UpdateBook "" "John Doe" 2023 1])%list
    /\ (callErr healthy = None ->
        table db'
        = map (fun row =>
                 if ID row =? 1
                 then mkBook (ID row) "" "John Doe" 2023
                 else row)
              (table oneBook)
        /\ ((exists row, In row (table oneBook) /\ ID row = 1) ->
            Status resp = StatusOK)).
Proof.
  apply (updateBookByID_no_emptiness_check healthy oneBook
           (put "/books/1" untitled) 1 (mkBook 0 "" "John Doe" 2023));
    reflexivity.
Defined.

(** ** A row stays where it is *)

(** A book found under [id] stays found, unchanged, across any call
    that is not an update or a delete of [id]. *)
Lemma serve_keeps id bk db c :
  find (hasID id) (table db) = Some bk ->
  writesTo id c = false ->
  find (hasID id) (table (serve db c)) = Some bk.
Proof.
  intros Hf Hw. destruct c as [drv r|drv r]; cbn [serve].
  - unfold handleBooks.
    destruct (String.eqb (Method r) MethodPost).
    + destruct (createBook_db drv db r) as [->|(b & _ & ->)]; [exact Hf|].
      destruct (insertReturningID drv db (Title b) (Author b) (Year b))
        as [db' res] eqn:E.
      apply insertReturningID_after in E as [[->|[[_ ->]|[_ ->]]] _];
        cbn [fst table issue]; [exact Hf|exact Hf|].
      now apply find_app_found.
    + destruct (String.eqb (Method r) MethodGet); [|exact Hf].
      now rewrite getAllBooks_db.
  - unfold handleBookByID. cbn [writesTo] in Hw.
    destruct (String.eqb (Method r) MethodGet) eqn:Eg.
    { destruct (getBookByID drv db r) as [[db' resp]|] eqn:E; [|exact Hf].
      apply getBookByID_db in E as [->|[id' ->]]; exact Hf. }
    destruct (String.eqb (Method r) MethodPut) eqn:Ep.
    { destruct (updateBookByID drv db r) as [[db' resp]|] eqn:E; [|exact Hf].
      apply updateBookByID_db in E as [->|(id' & b & Hp & _ & ->)];
        [exact Hf|].
      rewrite Hp in Hw. cbn [orb andb] in Hw. apply Z.eqb_neq in Hw.
      destruct (execUpdate drv db (Title b) (Author b) (Year b) id')
        as [db' res] eqn:E.
      apply execUpdate_after in E as [[->| ->] _]; cbn [fst table issue];
        [exact Hf|].
      rewrite find_update_other; [exact Hf|exact Hw|reflexivity]. }
    destruct (String.eqb (Method r) MethodDelete) eqn:Ed; [|exact Hf].
    destruct (deleteBookByID drv db r) as [[db' resp]|] eqn:E; [|exact Hf].
    apply deleteBookByID_db in E as [->|(id' & Hp & ->)]; [exact Hf|].
    rewrite Hp in Hw. cbn [orb andb] in Hw. apply Z.eqb_neq in Hw.
    destruct (execDelete drv db id') as [db' res] eqn:E.
    apply execDelete_after in E as [[->| ->] _]; cbn [fst table issue];
      [exact Hf|].
    rewrite find_delete_other; [exact Hf|exact Hw].
Qed.

Lemma serveAll_keeps id bk calls db :
  find (hasID id) (table db) = Some bk ->
  forallb (fun c => negb (writesTo id c)) calls = true ->
  find (hasID id) (table (serveAll db calls)) = Some bk.
Proof.
  revert db. induction calls as [|c calls IH]; intros db Hf Hall.
  - exact Hf.
  - cbn [forallb] in Hall. apply andb_true_iff in Hall as [Hc Hall].
    apply negb_true_iff in Hc. cbn [serveAll fold_left].
    apply IH; [|exact Hall]. now apply serve_keeps.
Qed.

(** ** The path-ID extractor: what it accepts and what it refuses *)

Lemma code_chr z : 0 <= z < 256 -> code (chr z) = z.
Proof.
  intros H. unfold code, chr. rewrite N_ascii_embedding.
  - apply Z2N.id. lia.
  - apply N2Z.inj_lt. rewrite Z2N.id by lia. simpl. lia.
Qed.

Lemma geb_false a b : a < b -> (a >=? b) = false.
Proof. intros H. rewrite Z.geb_leb. apply Z.leb_gt. exact H. Qed.

Lemma gtb_false a b : a <= b -> (a >? b) = false.
Proof. intros H. rewrite Z.gtb_ltb. apply Z.ltb_ge. exact H. Qed.

Lemma digit_step q d rest us :
  0 <= q -> 0 <= d < 10 -> q * 10 + d <= max64 ->
  strconv.digitLoop true 10 cutoff10 max64 (String (chr (48 + d)) rest) q us
  = strconv.digitLoop true 10 cutoff10 max64 rest (q * 10 + d) us.
Proof.
  intros Hq Hd Hm. unfold max64 in Hm. cbn [strconv.digitLoop].
  rewrite code_chr by lia.
  replace (48 + d =? 95) with false by (symmetry; apply Z.eqb_neq; lia).
  replace (48 <=? 48 + d) with true by (symmetry; apply Z.leb_le; lia).
  replace (48 + d <=? 57) with true by (symmetry; apply Z.leb_le; lia).
  cbn [andb]. replace (48 + d - 48) with d by lia.
  rewrite (geb_false d 10) by lia.
  rewrite (geb_false q cutoff10) by (unfold cutoff10; lia).
  rewrite (Z.mod_small (q * 10)) by lia.
  rewrite (Z.mod_small (q * 10 + d)) by lia.
  replace (q * 10 + d <? q * 10) with false by (symmetry; apply Z.ltb_ge; lia).
  rewrite (gtb_false (q * 10 + d) max64) by (unfold max64; lia).
  reflexivity.
Qed.

Lemma pow10_succ f : 10 ^ Z.of_nat (S f) = 10 * 10 ^ Z.of_nat f.
Proof. rewrite Nat2Z.inj_succ, Z.pow_succ_r by lia. reflexivity. Qed.

Lemma formatBits_value f u acc :
  0 <= u < 10 ^ Z.of_nat f -> u <= max64 ->
  strconv.digitLoop true 10 cutoff10 max64 (strconv.formatBits f u acc) 0 false
  = strconv.digitLoop true 10 cutoff10 max64 acc u false.
Proof.
  revert u acc. induction f as [|f IH]; intros u acc Hu Hm.
  - cbn in Hu. replace u with 0 by lia. reflexivity.
  - rewrite pow10_succ in Hu. cbn [strconv.formatBits].
    destruct (Z.ltb_spec u 10) as [Hlt|Hge].
    + rewrite Z.mod_small by lia. rewrite digit_step by lia.
      now replace (0 * 10 + u) with u by lia.
    + rewrite IH; [| |].
      * rewrite digit_step.
        -- f_equal. symmetry. rewrite Z.mul_comm. apply Z.div_mod. lia.
        -- apply Z.div_pos; lia.
        -- apply Z.mod_pos_bound. lia.
        -- pose proof (Z.div_mod u 10). lia.
      * split; [apply Z.div_pos; lia|]. apply Z.div_lt_upper_bound; lia.
      * pose proof (Z.div_mod u 10). pose proof (Z.mod_pos_bound u 10). lia.
Qed.

Lemma isDigit_chr d : 0 <= d < 10 -> isDigit (chr (48 + d)) = true.
Proof.
  intros H. unfold isDigit. rewrite code_chr by lia.
  apply andb_true_iff. split; apply Z.leb_le; lia.
Qed.

Lemma formatBits_digits f u acc :
  0 <= u -> allDigits acc = true -> allDigits (strconv.formatBits f u acc) = true.
Proof.
  revert u acc. induction f as [|f IH]; intros u acc Hu Ha; [exact Ha|].
  cbn [strconv.formatBits].
  assert (allDigits (String (chr (48 + u mod 10)) acc) = true) as Hacc.
  { cbn [allDigits]. rewrite isDigit_chr, Ha; [reflexivity|].
    apply Z.mod_pos_bound. lia. }
  destruct (u <? 10); [exact Hacc|].
  apply IH; [apply Z.div_pos; lia|exact Hacc].
Qed.

(** The first byte is a digit other than zero. *)
Lemma formatBits_head f u acc :
  0 < u < 10 ^ Z.of_nat f ->
  exists d rest, 0 < d < 10 /\ strconv.formatBits f u acc = String (chr (48 + d)) rest.
Proof.
  revert u acc. induction f as [|f IH]; intros u acc Hu.
  - cbn in Hu. lia.
  - rewrite pow10_succ in Hu. cbn [strconv.formatBits].
    destruct (Z.ltb_spec u 10) as [Hlt|Hge].
    + exists u, acc. rewrite Z.mod_small by lia. split; [lia|reflexivity].
    + apply IH. split.
      * apply Z.div_str_pos. lia.
      * apply Z.div_lt_upper_bound; lia.
Qed.

Lemma eqb_code c k : Ascii.eqb c k = (code c =? code k).
Proof.
  destruct (Ascii.eqb_spec c k) as [->|Hne].
  - symmetry. apply Z.eqb_refl.
  - symmetry. apply Z.eqb_neq. intros H. apply Hne.
    unfold code in H. apply N2Z.inj in H.
    rewrite <- (ascii_N_embedding c), <- (ascii_N_embedding k). now rewrite H.
Qed.

Lemma digit_in_digits c :
  isDigit c = true -> indexByte c (fmt.decimalDigits ++ "_") = true.
Proof.
  unfold isDigit. intros H. apply andb_true_iff in H as [H1 H2].
  apply Z.leb_le in H1. apply Z.leb_le in H2.
  cbn [fmt.decimalDigits String.append indexByte]. rewrite !eqb_code.
  change (code "0") with 48. change (code "1") with 49.
  change (code "2") with 50. change (code "3") with 51.
  change (code "4") with 52. change (code "5") with 53.
  change (code "6") with 54. change (code "7") with 55.
  change (code "8") with 56. change (code "9") with 57.
  assert (code c = 48 \/ code c = 49 \/ code c = 50 \/ code c = 51
          \/ code c = 52 \/ code c = 53 \/ code c = 54 \/ code c = 55
          \/ code c = 56 \/ code c = 57) as Hc by lia.
  repeat (destruct Hc as [Hc|Hc]; [rewrite Hc; reflexivity|]).
  rewrite Hc. reflexivity.
Qed.

Lemma acceptAll_digits s b :
  allDigits s = true ->
  fmt.acceptAll (fmt.decimalDigits ++ "_") s b
  = {| fmt.input := ""; fmt.buf := b ++ s |}.
Proof.
  revert b. induction s as [|c s IH]; intros b H; cbn [fmt.acceptAll].
  - f_equal. clear. induction b; simpl; [reflexivity|now f_equal].
  - cbn [allDigits] in H. apply andb_true_iff in H as [Hc Hs].
    rewrite (digit_in_digits c Hc), (IH _ Hs). f_equal.
    clear. induction b; simpl; [reflexivity|now f_equal].
Qed.

Lemma SkipSpace_graphic c rest :
  33 <= code c < 128 -> fmt.SkipSpace (String c rest) = String c rest.
Proof.
  intros H. cbn [fmt.SkipSpace].
  replace (code c <=? 13) with false by (symmetry; apply Z.leb_gt; lia).
  replace (code c =? 32) with false by (symmetry; apply Z.eqb_neq; lia).
  rewrite andb_false_r. cbn [orb].
  replace (code c =? 194) with false by (symmetry; apply Z.eqb_neq; lia).
  replace (code c =? 225) with false by (symmetry; apply Z.eqb_neq; lia).
  replace (code c =? 226) with false by (symmetry; apply Z.eqb_neq; lia).
  replace (code c =? 227) with false by (symmetry; apply Z.eqb_neq; lia).
  cbn [andb orb].
  destruct rest as [|c1 [|c2 r2]]; reflexivity.
Qed.

Lemma ParseUint_decimal c rest u :
  49 <= code c <= 57 ->
  strconv.digitLoop true 10 cutoff10 max64 (String c rest) 0 false
  = inr (u, false) ->
  strconv.ParseUint (String c rest) 0 64 = (u, None).
Proof.
  intros Hc Hl. unfold strconv.ParseUint.
  replace (code c =? 48) with false by (symmetry; apply Z.eqb_neq; lia).
  change (strconv.maxUint64 / 10 + 1) with cutoff10.
  change (2 ^ (if 64 =? 0 then 64 else 64) - 1) with max64.
  cbn [Z.eqb Z.leb Z.ltb Z.gtb Z.compare Pos.compare Pos.compare_cont andb orb negb].
  change (strconv.maxUint64 / 10 + 1) with cutoff10.
  rewrite Hl. reflexivity.
Qed.

Lemma ParseInt_decimal c rest u :
  49 <= code c <= 57 ->
  strconv.digitLoop true 10 cutoff10 max64 (String c rest) 0 false
  = inr (u, false) ->
  (u <= maxInt64 -> strconv.ParseInt (String c rest) 0 64 = inr u)
  /\ (u <= - minInt64 ->
      strconv.ParseInt (String (chr 45) (String c rest)) 0 64 = inr (- u)).
Proof.
  intros Hc Hl. pose proof (ParseUint_decimal c rest u Hc Hl) as Hu.
  split; intros Hr; unfold strconv.ParseInt.
  - replace (code c =? 45) with false by (symmetry; apply Z.eqb_neq; lia).
    replace (code c =? 43) with false by (symmetry; apply Z.eqb_neq; lia).
    cbn [orb negb andb]. rewrite Hu.
    change (2 ^ ((if 64 =? 0 then 64 else 64) - 1)) with (maxInt64 + 1).
    rewrite geb_false by lia. reflexivity.
  - change (code (chr 45) =? 45) with true.
    change (code (chr 45) =? 43) with false.
    cbn [orb negb andb]. rewrite Hu.
    change (2 ^ ((if 64 =? 0 then 64 else 64) - 1)) with (- minInt64).
    rewrite gtb_false by lia. reflexivity.
Qed.

Lemma digit_not_sign c : isDigit c = true -> indexByte c fmt.sign = false.
Proof.
  unfold isDigit. intros H. apply andb_true_iff in H as [H1 H2].
  apply Z.leb_le in H1. apply Z.leb_le in H2.
  cbn [fmt.sign indexByte]. rewrite !eqb_code.
  change (code "+") with 43. change (code "-") with 45.
  replace (code c =? 43) with false by (symmetry; apply Z.eqb_neq; lia).
  replace (code c =? 45) with false by (symmetry; apply Z.eqb_neq; lia).
  reflexivity.
Qed.

(** Scanning an input that is a run of decimal digits not starting
    with zero yields the whole run as the token. *)
Lemma scanInt_token c rest b0 :
  49 <= code c <= 57 -> allDigits rest = true ->
  fmt.scanNumber (fmt.decimalDigits ++ "_") false
                 {| fmt.input := String c rest; fmt.buf := b0 |}
  = inr {| fmt.input := ""; fmt.buf := b0 ++ String c rest |}.
Proof.
  intros Hc Hr. unfold fmt.scanNumber, fmt.accept. cbn [fmt.input fmt.buf].
  assert (isDigit c = true) as Hd.
  { unfold isDigit. apply andb_true_iff. split; apply Z.leb_le; lia. }
  rewrite (digit_in_digits c Hd). cbn [fmt.input fmt.buf].
  rewrite acceptAll_digits by exact Hr. f_equal. f_equal.
  clear. induction b0; simpl; [reflexivity|now f_equal].
Qed.

Lemma nonzero_not_zero c : 49 <= code c <= 57 -> indexByte c "0" = false.
Proof.
  intros H. cbn [indexByte]. rewrite eqb_code. change (code "0") with 48.
  replace (code c =? 48) with false by (symmetry; apply Z.eqb_neq; lia).
  reflexivity.
Qed.

Lemma Sscan_decimal c rest u :
  49 <= code c <= 57 -> allDigits rest = true ->
  strconv.digitLoop true 10 cutoff10 max64 (String c rest) 0 false
  = inr (u, false) ->
  (u <= maxInt64 -> fmt.Sscan (String c rest) = inr u)
  /\ (u <= - minInt64 ->
      fmt.Sscan (String (chr 45) (String c rest)) = inr (- u)).
Proof.
  intros Hc Hr Hl. destruct (ParseInt_decimal c rest u Hc Hl) as [Hp Hn].
  assert (isDigit c = true) as Hd.
  { unfold isDigit. apply andb_true_iff. split; apply Z.leb_le; lia. }
  split; intros Hu; unfold fmt.Sscan, fmt.scanInt; cbn [fmt.input fmt.buf].
  - rewrite SkipSpace_graphic by lia.
    unfold fmt.accept at 1. cbn [fmt.input fmt.buf].
    rewrite (digit_not_sign c Hd). cbn [snd].
    unfold fmt.scanBasePrefix, fmt.peek. cbn [fmt.input].
    rewrite (nonzero_not_zero c Hc). cbn [negb].
    rewrite scanInt_token by assumption. cbn [fmt.buf String.append].
    rewrite (Hp Hu). reflexivity.
  - rewrite SkipSpace_graphic by (change (code (chr 45)) with 45; lia).
    unfold fmt.accept at 1. cbn [fmt.input fmt.buf].
    change (indexByte (chr 45) fmt.sign) with true. cbn [snd String.append].
    unfold fmt.scanBasePrefix, fmt.peek. cbn [fmt.input].
    rewrite (nonzero_not_zero c Hc). cbn [negb].
    rewrite scanInt_token by assumption. cbn [fmt.buf String.append].
    rewrite (Hn Hu). reflexivity.
Qed.

Lemma Sscan_FormatInt id :
  inInt64 id = true -> fmt.Sscan (strconv.FormatInt id) = inr id.
Proof.
  unfold inInt64. intros H. apply andb_true_iff in H as [H1 H2].
  apply Z.leb_le in H1. apply Z.leb_le in H2.
  unfold minInt64 in H1. unfold maxInt64 in H2.
  assert (forall u, 0 < u <= - minInt64 ->
            exists c rest,
              strconv.formatBits 20 u "" = String c rest
              /\ 49 <= code c <= 57 /\ allDigits rest = true
              /\ strconv.digitLoop true 10 cutoff10 max64 (String c rest) 0 false
                 = inr (u, false)) as Hfmt.
  { intros u Hu. unfold minInt64 in Hu.
    destruct (formatBits_head 20 u "") as (d & rest & Hd & E).
    { split; [lia|]. change (10 ^ Z.of_nat 20) with 100000000000000000000. lia. }
    exists (chr (48 + d)), rest. split; [exact E|].
    split; [rewrite code_chr by lia; lia|].
    pose proof (formatBits_digits 20 u "" ltac:(lia) eq_refl) as Ha.
    rewrite E in Ha. cbn [allDigits] in Ha.
    apply andb_true_iff in Ha as [_ Ha]. split; [exact Ha|].
    rewrite <- E. rewrite formatBits_value; [reflexivity| |unfold max64; lia].
    split; [lia|]. change (10 ^ Z.of_nat 20) with 100000000000000000000. lia. }
  unfold strconv.FormatInt.
  destruct (Z.ltb_spec id 0) as [Hneg|Hpos].
  - destruct (Hfmt (- id)) as (c & rest & E & Hc & Hr & Hl);
      [unfold minInt64; lia|].
    rewrite E. destruct (Sscan_decimal c rest (- id) Hc Hr Hl) as [_ Hn].
    rewrite Hn by (unfold minInt64; lia). f_equal. lia.
  - destruct (Z.eq_dec id 0) as [->|Hnz]; [reflexivity|].
    destruct (Hfmt id) as (c & rest & E & Hc & Hr & Hl);
      [unfold minInt64; lia|].
    rewrite E. destruct (Sscan_decimal c rest id Hc Hr Hl) as [Hp _].
    apply Hp. unfold maxInt64. lia.
Qed.

Lemma digitLoop_flag b0 base cutoff maxVal s n m us :
  strconv.digitLoop b0 base cutoff maxVal s n true = inr (m, us) -> us = true.
Proof.
  revert n. induction s as [|c s IH]; intros n; cbn [strconv.digitLoop].
  - now intros [= _ <-].
  - destruct ((code c =? 95) && b0); [apply IH|].
    destruct (if (48 <=? code c) && (code c <=? 57) then _ else _) as [d|];
      [|discriminate].
    destruct (d >=? base); [discriminate|].
    destruct (n >=? cutoff); [discriminate|].
    destruct (_ || _); [discriminate|]. apply IH.
Qed.

Lemma underscoreOK_leading t : strconv.underscoreOK (String (chr 95) t) = false.
Proof. destruct t; reflexivity. Qed.

(** A token whose number part starts with an underscore is refused. *)
Lemma ParseUint_underscore t :
  exists un e,
    strconv.ParseUint (String (chr 95) t) 0 64 = (un, Some e)
    /\ (e = strconv.ErrRange -> un = max64).
Proof.
  unfold strconv.ParseUint.
  change (code (chr 95) =? 48) with false.
  cbn [Z.eqb Z.leb Z.ltb Z.gtb Z.compare Pos.compare Pos.compare_cont andb orb negb].
  change (strconv.maxUint64 / 10 + 1) with cutoff10.
  change (2 ^ 64 - 1) with max64.
  cbn [strconv.digitLoop]. change ((code (chr 95) =? 95) && true) with true.
  cbv iota.
  destruct (strconv.digitLoop true 10 cutoff10 max64 t 0 true)
    as [e|[n us]] eqn:E; [destruct e|].
  - exists 0, strconv.ErrSyntax. split; [reflexivity|discriminate].
  - exists max64, strconv.ErrRange. split; reflexivity.
  - exists 0, strconv.ErrBase. split; [reflexivity|discriminate].
  - exists 0, strconv.ErrBitSize. split; [reflexivity|discriminate].
  - apply digitLoop_flag in E. subst us. rewrite underscoreOK_leading.
    exists 0, strconv.ErrSyntax. split; [reflexivity|discriminate].
Qed.

Lemma ParseInt_underscore b t :
  b = "" \/ b = "+" \/ b = "-" ->
  exists e, strconv.ParseInt (b ++ String (chr 95) t) 0 64 = inl e.
Proof.
  destruct (ParseUint_underscore t) as (un & e & Hu & Hr).
  intros [ -> | [ -> | -> ] ]; cbn [String.append]; unfold strconv.ParseInt.
  - change (code (chr 95) =? 45) with false.
    change (code (chr 95) =? 43) with false. cbn [orb]. rewrite Hu.
    destruct e; try (eexists; reflexivity).
    rewrite (Hr eq_refl). eexists. reflexivity.
  - change (code "+" =? 45) with false.
    change (code "+" =? 43) with true. cbn [orb]. rewrite Hu.
    destruct e; try (eexists; reflexivity).
    rewrite (Hr eq_refl). eexists. reflexivity.
  - change (code "-" =? 45) with true.
    change (code "-" =? 43) with false. cbn [orb]. rewrite Hu.
    destruct e; try (eexists; reflexivity).
    rewrite (Hr eq_refl). eexists. reflexivity.
Qed.

Lemma acceptAll_buf ok inp b : exists t, fmt.buf (fmt.acceptAll ok inp b) = b ++ t.
Proof.
  revert b. induction inp as [|c inp IH]; intros b; cbn [fmt.acceptAll].
  - exists "". cbn [fmt.buf]. clear. induction b; simpl; [reflexivity|now f_equal].
  - destruct (indexByte c ok).
    + destruct (IH (b ++ String c "")) as [t Ht]. exists (String c t).
      rewrite Ht. clear. induction b; simpl; [reflexivity|now f_equal].
    + exists "". cbn [fmt.buf]. clear. induction b; simpl; [reflexivity|now f_equal].
Qed.

Lemma not_digit_split c :
  indexByte c fmt.decimalDigits = false ->
  indexByte c "0" = false
  /\ indexByte c (fmt.decimalDigits ++ "_") = Ascii.eqb c (chr 95).
Proof.
  cbn [fmt.decimalDigits String.append indexByte]. intros H.
  repeat (match type of H with
          | (if ?x then _ else _) = false =>
              destruct x; [discriminate|]
          end).
  split; [reflexivity|]. change (chr 95) with "_"%char.
  destruct (Ascii.eqb c "_"); reflexivity.
Qed.

(** With no digit next in the input the scan of the number fails. *)
Lemma scan_without_digit inp b :
  headDigit inp = false -> b = "" \/ b = "+" \/ b = "-" ->
  exists e,
    (let '(s, digits, haveDigits) :=
       fmt.scanBasePrefix {| fmt.input := inp; fmt.buf := b |} in
     match fmt.scanNumber digits haveDigits s with
     | inl e => inl e
     | inr s =>
         match strconv.ParseInt (fmt.buf s) 0 64 with
         | inl e => inl (fmt.NumErr e)
         | inr i => inr (i, s)
         end
     end) = inl e.
Proof.
  intros Hh Hb. unfold fmt.scanBasePrefix, fmt.peek. cbn [fmt.input].
  destruct inp as [|c r].
  - cbn [negb]. unfold fmt.scanNumber. cbn [fmt.input]. eexists. reflexivity.
  - cbn [headDigit] in Hh. destruct (not_digit_split c Hh) as [H0 H_].
    rewrite H0. cbn [negb]. unfold fmt.scanNumber, fmt.accept.
    cbn [fmt.input fmt.buf]. rewrite H_.
    destruct (Ascii.eqb_spec c (chr 95)) as [->|Hne];
      [|eexists; reflexivity].
    cbn [fmt.input fmt.buf].
    destruct (acceptAll_buf (fmt.decimalDigits ++ "_") r (b ++ String (chr 95) ""))
      as [t Ht].
    rewrite Ht.
    replace ((b ++ String (chr 95) "") ++ t) with (b ++ String (chr 95) t).
    + destruct (ParseInt_underscore b t Hb) as [e He]. rewrite He.
      eexists. reflexivity.
    + clear. induction b; simpl; [reflexivity|now f_equal].
Qed.

Lemma sign_cases c :
  indexByte c fmt.sign = true -> String c "" = "+" \/ String c "" = "-".
Proof.
  cbn [fmt.sign indexByte].
  destruct (Ascii.eqb_spec c "+") as [->|]; [now left|].
  destruct (Ascii.eqb_spec c "-") as [->|]; [now right|discriminate].
Qed.

Lemma Sscan_without_digit s :
  beginsWithDigit s = false -> exists e, fmt.Sscan s = inl e.
Proof.
  unfold beginsWithDigit, fmt.Sscan, fmt.scanInt. cbn [fmt.input fmt.buf].
  destruct (fmt.SkipSpace s) as [|c r]; [intros _; eexists; reflexivity|].
  unfold fmt.accept. cbn [fmt.input fmt.buf String.append].
  destruct (indexByte c fmt.sign) eqn:Es; intros H; cbn [snd].
  - destruct (scan_without_digit r (String c "") H) as [e He].
    { right. now apply sign_cases. }
    rewrite He. eexists. reflexivity.
  - destruct (scan_without_digit (String c r) "" H) as [e He]; [now left|].
    rewrite He. eexists. reflexivity.
Qed.

Lemma by_id_bad_request r e :
  parseIDFromURL r = Some (inl e) ->
  forall drv db,
    getBookByID drv db r = Some (db, httpError "Неверный ID" StatusBadRequest)
    /\ updateBookByID drv db r
       = Some (db, httpError "Неверный ID" StatusBadRequest)
    /\ deleteBookByID drv db r
       = Some (db, httpError "Неверный ID" StatusBadRequest).
Proof.
  intros H drv db. unfold getBookByID, updateBookByID, deleteBookByID.
  rewrite H. repeat split.
Qed.

(** C6, the claim as it stands fails: the scan stops at the first byte
    that cannot belong to the integer and asks nothing of what follows,
    so a trailing slash, a further path segment or letters after the
    digits do not make the extraction fail, and the by-id handlers go
    on to the database instead of answering 400; and a segment with a
    leading zero is read in base 8. *)
Lemma parseIDFromURL_accepts_trailing_segments :
  parseIDFromURL (get "/books/123/") = Some (inr 123)
  /\ parseIDFromURL (get "/books/123/extra") = Some (inr 123)
  /\ parseIDFromURL (get "/books/12abc") = Some (inr 12)
  /\ parseIDFromURL (get "/books/010") = Some (inr 8)
  /\ getBookByID healthy emptyDB (get "/books/123/")
     = Some (issue (SelectBook 123) emptyDB,
             httpError "Книга не найдена" StatusNotFound)
  /\ getBookByID healthy oneBook (get "/books/1/extra")
     = Some (issue (SelectBook 1) oneBook,
             writeJSON (encodeBook (mkBook 1 "Golang Book" "John Doe" 2023))).
Proof. repeat split. Qed.

(** C6 (amended).  On a path that starts with /books/, the extractor
    returns the integer when the rest of the path is a signed 64-bit
    integer in plain decimal notation (digits without a leading zero,
    a minus sign before them for a negative one), and returns an error,
    answered 400 by the three by-id handlers, whenever the rest of the
    path does not begin, after white space and an optional sign, with
    a decimal digit. *)
Theorem parseIDFromURL_decimal_or_no_digit :
  (forall m body id,
      inInt64 id = true ->
      parseIDFromURL (mkRequest m (booksPrefix ++ strconv.FormatInt id) body)
      = Some (inr id))
  /\ (forall m body suffix,
         beginsWithDigit suffix = false ->
         let r := mkRequest m (booksPrefix ++ suffix) body in
         (exists e, parseIDFromURL r = Some (inl (ScanFailure e)))
         /\ forall drv db,
              getBookByID drv db r
              = Some (db, httpError "Неверный ID" StatusBadRequest)
              /\ updateBookByID drv db r
                 = Some (db, httpError "Неверный ID" StatusBadRequest)
              /\ deleteBookByID drv db r
                 = Some (db, httpError "Неверный ID" StatusBadRequest)).
Proof.
  split.
  - intros m body id H. rewrite parseIDFromURL_prefixed.
    now rewrite (Sscan_FormatInt id H).
  - intros m body suffix H r.
    destruct (Sscan_without_digit suffix H) as [e He].
    assert (parseIDFromURL r = Some (inl (ScanFailure e))) as Hp.
    { unfold r. rewrite parseIDFromURL_prefixed. now rewrite He. }
    split; [exists e; exact Hp|]. now apply by_id_bad_request with (e := ScanFailure e).
Qed.

Lemma parseIDFromURL_decimal_or_no_digit_witness :
  parseIDFromURL (get "/books/-9223372036854775808")
  = Some (inr (-9223372036854775808))
  /\ (exists e, parseIDFromURL (get "/books/abc/1") = Some (inl (ScanFailure e)))
  /\ getBookByID healthy oneBook (get "/books/abc/1")
     = Some (oneBook, httpError "Неверный ID" StatusBadRequest).
Proof.
  split.
  - apply (proj1 parseIDFromURL_decimal_or_no_digit
             MethodGet None (-9223372036854775808)). reflexivity.
  - pose proof (proj2 parseIDFromURL_decimal_or_no_digit
                  MethodGet None "abc/1" eq_refl) as [He Hh].
    split; [exact He|]. exact (proj1 (Hh healthy oneBook)).
Defined.

(** ** Create, then read: through the columns and the path *)

Lemma cutChars_fits s :
  forall n, (charLen s <= n)%nat -> cutChars n s = (s, EmptyString).
Proof.
  induction s as [|c s IH]; intros n H; cbn [cutChars charLen] in *;
    [reflexivity|].
  destruct (isContinuation c).
  - now rewrite (IH n H).
  - destruct n as [|k]; [lia|]. rewrite (IH k); [reflexivity|lia].
Qed.

(** A text of at most 255 characters is kept as it is. *)
Lemma varchar255_fits s : (charLen s <= 255)%nat -> varchar255 s = s.
Proof. intros H. unfold varchar255. now rewrite (cutChars_fits s 255 H). Qed.

Lemma getBookByID_path drv db m body id :
  inInt64 id = true -> callErr drv = None ->
  getBookByID drv db (mkRequest m (booksPrefix ++ strconv.FormatInt id) body)
  = Some (issue (SelectBook id) db,
          match find (hasID id) (table db) with
          | Some b => writeJSON (encodeBook b)
          | None => httpError "Книга не найдена" StatusNotFound
          end).
Proof.
  intros Hi Hc. unfold getBookByID, queryBook.
  rewrite parseIDFromURL_prefixed, (Sscan_FormatInt id Hi), Hc, issue_table.
  destruct (find (hasID id) (table db)); reflexivity.
Qed.

(** C4, the claim as it stands fails: the columns are VARCHAR(255), and
    a title of 255 letters followed by a space is stored without the
    space.  The create request is answered 200 with the title as
    submitted; the get-by-id that follows returns the title as
    stored, which is another. *)
Lemma getBookByID_after_createBook_long_title :
  createBook healthy emptyDB (post paddedBook)
  = (serve emptyDB (ToBooks healthy (post paddedBook)),
     writeJSON (JObj [("id", JInt 1); ("title", JStr paddedTitle);
                      ("author", JStr "John Doe"); ("year", JInt 2023)]))
  /\ getBookByID healthy (serve emptyDB (ToBooks healthy (post paddedBook)))
                 (get "/books/1")
     = Some (issue (SelectBook 1)
               (serve emptyDB (ToBooks healthy (post paddedBook))),
             writeJSON (JObj [("id", JInt 1);
                              ("title", JStr (replicate 255 "a"));
                              ("author", JStr "John Doe");
                              ("year", JInt 2023)]))
  /\ replicate 255 "a" <> paddedTitle.
Proof.
  split; [vm_compute; reflexivity|]. split; [vm_compute; reflexivity|].
  intros H. apply (f_equal String.length) in H. vm_compute in H.
  discriminate.
Qed.

(** C4 (amended).  After a create request answered 200 whose title and
    author have at most 255 characters each, the response carries the
    book under the id the sequence gave it, and a get-by-id on the
    path of that id, served after any calls none of which updates or
    deletes that id, is answered 200 with a book of the same id whose
    title, author and year are those submitted at creation (the id
    being within the range of int64, as that of a SERIAL column is,
    and the select being executed without a driver error). *)
Theorem getBookByID_after_createBook :
  forall drv db r b db1 resp calls drv' m body,
    Decode (Body r) zeroBook = inr b ->
    createBook drv db r = (db1, resp) ->
    Status resp = StatusOK ->
    (charLen (Title b) <= 255)%nat ->
    (charLen (Author b) <= 255)%nat ->
    inInt64 (nextID db) = true ->
    forallb (fun c => negb (writesTo (nextID db) c)) calls = true ->
    callErr drv' = None ->
    resp = writeJSON (JObj [("id", JInt (nextID db));
                            ("title", JStr (Title b));
                            ("author", JStr (Author b));
                            ("year", JInt (Year b))])
    /\ getBookByID drv' (serveAll db1 calls)
         (mkRequest m (booksPrefix ++ strconv.FormatInt (nextID db)) body)
       = Some (issue (SelectBook (nextID db)) (serveAll db1 calls),
               writeJSON (JObj [("id", JInt (nextID db));
                                ("title", JStr (Title b));
                                ("author", JStr (Author b));
                                ("year", JInt (Year b))])).
Proof.
  intros drv db r b db1 resp calls drv' m body Hd Hc Hs Ht Ha Hi Hall Hc'.
  rewrite (createBook_decoded drv db r b Hd) in Hc.
  destruct (_ || _); [injection Hc as <- <-; discriminate|].
  destruct (insertReturningID drv db (Title b) (Author b) (Year b))
    as [db' [err|id]] eqn:E; injection Hc as <- <-; [discriminate|].
  apply insertReturningID_after in E as [_ E].
  destruct (E id eq_refl) as (_ & -> & He & ->).
  split; [reflexivity|].
  rewrite (getBookByID_path drv' _ m body (nextID db) Hi Hc').
  rewrite (serveAll_keeps (nextID db)
             (mkBook (nextID db) (Title b) (Author b) (Year b)) calls);
    [reflexivity| |exact Hall].
  cbn [table]. rewrite (varchar255_fits _ Ht), (varchar255_fits _ Ha).
  apply find_app_new; [exact He|]. apply Z.eqb_refl.
Qed.

Lemma getBookByID_after_createBook_witness :
  snd (createBook healthy emptyDB (post golangBook))
  = writeJSON (JObj [("id", JInt 1); ("title", JStr "Golang Book");
                     ("author", JStr "John Doe"); ("year", JInt 2023)])
  /\ getBookByID healthy
       (serveAll oneBook
          [ToBooks healthy (post paddedBook);
           ToBookByID healthy (put "/books/2" untitled)])
       (get "/books/1")
     = Some (issue (SelectBook 1)
               (serveAll oneBook
                  [ToBooks healthy (post paddedBook);
                   ToBookByID healthy (put "/books/2" untitled)]),
             writeJSON (JObj [("id", JInt 1); ("title", JStr "Golang Book");
                              ("author", JStr "John Doe");
                              ("year", JInt 2023)])).
Proof.
  apply (getBookByID_after_createBook healthy emptyDB (post golangBook)
           (mkBook 0 "Golang Book" "John Doe" 2023) oneBook
           (snd (createBook healthy emptyDB (post golangBook)))
           [ToBooks healthy (post paddedBook);
            ToBookByID healthy (put "/books/2" untitled)]
           healthy MethodGet None);
    try reflexivity; cbn; lia.
Defined.

(** * Further properties of the handlers *)

(** ** One call at a time: effects on the table, the sequence, the log *)

Lemma serve_effect db c : Effect db (table (serve db c)) (nextID (serve db c)).
Proof.
  destruct c as [drv r|drv r]; cbn [serve].
  - unfold handleBooks.
    destruct (String.eqb (Method r) MethodPost).
    + destruct (createBook_db drv db r) as [->|(b & _ & ->)];
        [exact (Untouched db)|].
      destruct (insertReturningID drv db (Title b) (Author b) (Year b))
        as [db' res] eqn:E.
      apply insertReturningID_after in E as [[->|[[E ->]|[E ->]]] _];
        cbn [fst table nextID issue];
        [exact (Untouched db)|exact (Refused db E)
        |exact (Inserted db _ _ _ E)].
    + destruct (String.eqb (Method r) MethodGet); [|exact (Untouched db)].
      rewrite getAllBooks_db. exact (Untouched db).
  - unfold handleBookByID.
    destruct (String.eqb (Method r) MethodGet).
    { destruct (getBookByID drv db r) as [[db' resp]|] eqn:E;
        [|exact (Untouched db)].
      apply getBookByID_db in E as [->|[id ->]]; exact (Untouched db). }
    destruct (String.eqb (Method r) MethodPut).
    { destruct (updateBookByID drv db r) as [[db' resp]|] eqn:E;
        [|exact (Untouched db)].
      apply updateBookByID_db in E as [->|(id & b & _ & _ & ->)];
        [exact (Untouched db)|].
      destruct (execUpdate drv db (Title b) (Author b) (Year b) id)
        as [db' res] eqn:E.
      apply execUpdate_after in E as [[->| ->] _];
        cbn [fst table nextID issue];
        [exact (Untouched db)|exact (Updated db _ _ _ _)]. }
    destruct (String.eqb (Method r) MethodDelete); [|exact (Untouched db)].
    destruct (deleteBookByID drv db r) as [[db' resp]|] eqn:E;
      [|exact (Untouched db)].
    apply deleteBookByID_db in E as [->|(id & _ & ->)];
      [exact (Untouched db)|].
    destruct (execDelete drv db id) as [db' res] eqn:E.
    apply execDelete_after in E as [[->| ->] _];
      cbn [fst table nextID issue];
      [exact (Untouched db)|exact (Deleted db _)].
Qed.

Lemma serve_issued db c :
  issued (serve db c) = issued db
  \/ exists st, issued (serve db c) = (issued db ++ [st])%list.
Proof.
  destruct c as [drv r|drv r]; cbn [serve].
  - unfold handleBooks.
    destruct (String.eqb (Method r) MethodPost).
    + destruct (createBook_db drv db r) as [->|(b & _ & ->)]; [now left|].
      right. exists (InsertBook (Title b) (Author b) (Year b)).
      destruct (insertReturningID drv db (Title b) (Author b) (Year b))
        as [db' res] eqn:E.
      apply insertReturningID_after in E as [[->|[[_ ->]|[_ ->]]] _];
        reflexivity.
    + destruct (String.eqb (Method r) MethodGet); [|now left]. right.
      rewrite getAllBooks_db. eexists. reflexivity.
  - unfold handleBookByID.
    destruct (String.eqb (Method r) MethodGet).
    { destruct (getBookByID drv db r) as [[db' resp]|] eqn:E; [|now left].
      apply getBookByID_db in E as [->|[id ->]]; [now left|].
      right. eexists. reflexivity. }
    destruct (String.eqb (Method r) MethodPut).
    { destruct (updateBookByID drv db r) as [[db' resp]|] eqn:E; [|now left].
      apply updateBookByID_db in E as [->|(id & b & _ & _ & ->)];
        [now left|].
      right. exists (UpdateBook (Title b) (Author b) (Year b) id).
      destruct (execUpdate drv db (Title b) (Author b) (Year b) id)
        as [db' res] eqn:E.
      apply execUpdate_after in E as [[->| ->] _]; reflexivity. }
    destruct (String.eqb (Method r) MethodDelete); [|now left].
    destruct (deleteBookByID drv db r) as [[db' resp]|] eqn:E; [|now left].
    apply deleteBookByID_db in E as [->|(id & _ & ->)]; [now left|].
    right. exists (DeleteBook id).
    destruct (execDelete drv db id) as [db' res] eqn:E.
    apply execDelete_after in E as [[->| ->] _]; reflexivity.
Qed.

Lemma existsb_hasID_In id l :
  existsb (hasID id) l = false -> ~ In id (map ID l).
Proof.
  induction l as [|x l IH]; simpl; [tauto|].
  intros H. apply orb_false_iff in H as [Hx Hl].
  intros [E|E]; [|now apply IH].
  unfold hasID in Hx. apply Z.eqb_neq in Hx. congruence.
Qed.

Lemma map_ID_update id (f : Book -> Book) l :
  (forall b, ID (f b) = ID b) ->
  map ID (map (fun b => if hasID id b then f b else b) l) = map ID l.
Proof.
  intros Hf. induction l as [|x l IH]; simpl; [reflexivity|].
  rewrite IH. destruct (hasID id x); [now rewrite Hf|reflexivity].
Qed.

Lemma NoDup_map_filter {A B} (f : A -> B) (p : A -> bool) l :
  NoDup (map f l) -> NoDup (map f (filter p l)).
Proof.
  induction l as [|x l IH]; simpl; [auto|].
  intros H. inversion H as [|? ? Hx Hl]; subst.
  destruct (p x); [|auto]. simpl. constructor; [|auto].
  intros Hin. apply Hx. apply in_map_iff in Hin as (y & Hy & Hin).
  apply in_map_iff. exists y. split; [exact Hy|].
  apply filter_In in Hin. tauto.
Qed.

Lemma NoDup_snoc {A} (l : list A) a : NoDup l -> ~ In a l -> NoDup (l ++ [a]).
Proof.
  induction l as [|x l IH]; simpl; intros H Ha.
  - constructor; [tauto|constructor].
  - inversion H as [|? ? Hx Hl]; subst. constructor.
    + rewrite in_app_iff. simpl. intros [Hin|[E|[]]]; [tauto|].
      apply Ha. now left.
    + apply IH; [exact Hl|tauto].
Qed.

Lemma effect_unique db tbl nxt :
  Effect db tbl nxt -> NoDup (map ID (table db)) -> NoDup (map ID tbl).
Proof.
  intros [ |t a y E|E|t a y id|id] H; auto.
  - rewrite map_app. cbn [map ID]. apply NoDup_snoc; [exact H|].
    now apply existsb_hasID_In.
  - now rewrite map_ID_update.
  - now apply NoDup_map_filter.
Qed.

Lemma effect_ahead db tbl nxt :
  Effect db tbl nxt ->
  Forall (fun row => ID row < nextID db) (table db) ->
  Forall (fun row => ID row < nxt) tbl.
Proof.
  intros [ |t a y E|E|t a y id|id] H; auto.
  - apply Forall_app. split.
    + eapply Forall_impl; [|exact H]. cbv beta. intros; lia.
    + constructor; [cbn [ID]; lia|constructor].
  - eapply Forall_impl; [|exact H]. cbv beta. intros; lia.
  - apply Forall_map. eapply Forall_impl; [|exact H]. cbv beta.
    intros b Hb. destruct (hasID id b); exact Hb.
  - apply Forall_forall. intros b Hb. apply filter_In in Hb as [Hb _].
    revert b Hb. now apply Forall_forall.
Qed.

Lemma effect_monotone db tbl nxt : Effect db tbl nxt -> nextID db <= nxt.
Proof. intros [ | | | | ]; lia. Qed.

Lemma serveAll_monotone db calls : nextID db <= nextID (serveAll db calls).
Proof.
  revert db. induction calls as [|c calls IH]; intros db; [cbn; lia|].
  cbn [serveAll fold_left]. specialize (IH (serve db c)).
  pose proof (effect_monotone _ _ _ (serve_effect db c)).
  unfold serveAll in IH. lia.
Qed.

Lemma serveAll_ahead db calls :
  sequenceAhead db -> sequenceAhead (serveAll db calls).
Proof.
  revert db. induction calls as [|c calls IH]; intros db H; [exact H|].
  cbn [serveAll fold_left]. apply IH.
  exact (effect_ahead _ _ _ (serve_effect db c) H).
Qed.

Lemma ahead_fresh db :
  sequenceAhead db -> existsb (hasID (nextID db)) (table db) = false.
Proof.
  unfold sequenceAhead. induction (table db) as [|x l IH]; intros H;
    [reflexivity|].
  inversion H as [|? ? Hx Hl]; subst. cbn [existsb].
  rewrite (IH Hl), orb_false_r. unfold hasID. apply Z.eqb_neq. lia.
Qed.

(** X1.  The ids of the table stay pairwise distinct across any sequence
    of calls. *)
Theorem serveAll_keeps_ids_unique :
  forall db calls, uniqueIDs db -> uniqueIDs (serveAll db calls).
Proof.
  intros db calls. revert db.
  induction calls as [|c calls IH]; intros db H; [exact H|].
  cbn [serveAll fold_left]. apply IH.
  exact (effect_unique _ _ _ (serve_effect db c) H).
Qed.

Lemma serveAll_keeps_ids_unique_witness :
  uniqueIDs (serveAll twoBooks
               [ToBooks healthy (post golangBook);
                ToBookByID healthy (mkRequest MethodDelete "/books/1" None)]).
Proof.
  apply (serveAll_keeps_ids_unique twoBooks). unfold uniqueIDs.
  cbn. repeat constructor; cbn; intuition discriminate.
Defined.

(** X2.  While the sequence is ahead of every id in the table, which any
    sequence of calls preserves, the primary key never refuses an
    insert: a create request whose body decodes to a non-empty title
    and author is answered 200 unless the driver reports an error. *)
Theorem createBook_succeeds_while_sequence_ahead :
  forall db calls drv r b,
    sequenceAhead db ->
    Decode (Body r) zeroBook = inr b ->
    Title b <> "" -> Author b <> "" ->
    callErr drv = None ->
    sequenceAhead (serveAll db calls)
    /\ Status (snd (createBook drv (serveAll db calls) r)) = StatusOK
    /\ table (fst (createBook drv (serveAll db calls) r))
       = (table (serveAll db calls)
          ++ [mkBook (nextID (serveAll db calls)) (varchar255 (Title b))
                     (varchar255 (Author b)) (Year b)])%list.
Proof.
  intros db calls drv r b Ha Hd Ht Hau Hc.
  pose proof (serveAll_ahead db calls Ha) as Ha'.
  split; [exact Ha'|].
  rewrite (createBook_decoded _ _ r b Hd), (nonempty_fields b Ht Hau).
  unfold insertReturningID, insertRow. rewrite Hc. cbn [nextID issue table].
  rewrite (ahead_fresh _ Ha'). split; reflexivity.
Qed.

Lemma createBook_succeeds_while_sequence_ahead_witness :
  sequenceAhead (serveAll emptyDB [ToBooks healthy (post golangBook)])
  /\ Status (snd (createBook healthy
                    (serveAll emptyDB [ToBooks healthy (post golangBook)])
                    (post golangBook))) = StatusOK
  /\ table (fst (createBook healthy
                   (serveAll emptyDB [ToBooks healthy (post golangBook)])
                   (post golangBook)))
     = (table (serveAll emptyDB [ToBooks healthy (post golangBook)])
        ++ [mkBook (nextID (serveAll emptyDB [ToBooks healthy (post golangBook)]))
                   "Golang Book" "John Doe" 2023])%list.
Proof.
  apply (createBook_succeeds_while_sequence_ahead emptyDB
           [ToBooks healthy (post golangBook)] healthy (post golangBook)
           (mkBook 0 "Golang Book" "John Doe" 2023));
    [constructor|reflexivity|discriminate|discriminate|reflexivity].
Defined.

Lemma createBook_ok_id drv db r db1 resp :
  createBook drv db r = (db1, resp) -> Status resp = StatusOK ->
  exists b,
    Decode (Body r) zeroBook = inr b
    /\ resp = writeJSON (encodeBook
                           (mkBook (nextID db) (Title b) (Author b) (Year b)))
    /\ nextID db1 = nextID db + 1
    /\ table db1
       = (table db ++ [mkBook (nextID db) (varchar255 (Title b))
                              (varchar255 (Author b)) (Year b)])%list.
Proof.
  intros Hc Hs.
  destruct (Decode (Body r) zeroBook) as [e|b] eqn:Hd.
  { rewrite (createBook_undecodable drv db r e Hd) in Hc.
    injection Hc as <- <-. discriminate. }
  rewrite (createBook_decoded drv db r b Hd) in Hc.
  destruct (_ || _); [injection Hc as <- <-; discriminate|].
  destruct (insertReturningID drv db (Title b) (Author b) (Year b))
    as [db' [err|id]] eqn:E; injection Hc as <- <-; [discriminate|].
  apply insertReturningID_after in E as [_ E].
  destruct (E id eq_refl) as (_ & -> & _ & ->).
  exists b. repeat split.
Qed.

(** X3.  Two create requests answered 200 never carry the same id,
    whatever is served between them: the later id is the greater. *)
Theorem createBook_ids_increase :
  forall drv1 db r1 db1 resp1 calls drv2 r2 db2 resp2,
    createBook drv1 db r1 = (db1, resp1) -> Status resp1 = StatusOK ->
    createBook drv2 (serveAll db1 calls) r2 = (db2, resp2) ->
    Status resp2 = StatusOK ->
    exists b1 b2 id1 id2,
      Written resp1
      = Json (encodeBook (mkBook id1 (Title b1) (Author b1) (Year b1)))
      /\ Written resp2
         = Json (encodeBook (mkBook id2 (Title b2) (Author b2) (Year b2)))
      /\ id1 < id2.
Proof.
  intros drv1 db r1 db1 resp1 calls drv2 r2 db2 resp2 H1 S1 H2 S2.
  destruct (createBook_ok_id _ _ _ _ _ H1 S1) as (b1 & _ & -> & Hn & _).
  destruct (createBook_ok_id _ _ _ _ _ H2 S2) as (b2 & _ & -> & _ & _).
  exists b1, b2, (nextID db), (nextID (serveAll db1 calls)).
  split; [reflexivity|]. split; [reflexivity|].
  pose proof (serveAll_monotone db1 calls). lia.
Qed.

Lemma createBook_ids_increase_witness :
  exists b1 b2 id1 id2,
    Written (snd (createBook healthy emptyDB (post golangBook)))
    = Json (encodeBook (mkBook id1 (Title b1) (Author b1) (Year b1)))
    /\ Written (snd (createBook healthy
                       (serveAll oneBook
                          [ToBookByID healthy
                             (mkRequest MethodDelete "/books/1" None)])
                       (post golangBook)))
       = Json (encodeBook (mkBook id2 (Title b2) (Author b2) (Year b2)))
    /\ id1 < id2.
Proof.
  apply (createBook_ids_increase healthy emptyDB (post golangBook) oneBook
           (snd (createBook healthy emptyDB (post golangBook)))
           [ToBookByID healthy (mkRequest MethodDelete "/books/1" None)]
           healthy (post golangBook)
           (fst (createBook healthy
                   (serveAll oneBook
                      [ToBookByID healthy
                         (mkRequest MethodDelete "/books/1" None)])
                   (post golangBook)))
           (snd (createBook healthy
                   (serveAll oneBook
                      [ToBookByID healthy
                         (mkRequest MethodDelete "/books/1" None)])
                   (post golangBook)))); reflexivity.
Defined.

(** X4.  A call sends at most one statement to the database, and a call
    that is not a POST to /books, a PUT or a DELETE leaves the table
    and the id sequence as they were. *)
Theorem serve_one_statement_reads_change_nothing :
  forall db c,
    (issued (serve db c) = issued db
     \/ exists st, issued (serve db c) = (issued db ++ [st])%list)
    /\ (mayWrite c = false ->
        table (serve db c) = table db /\ nextID (serve db c) = nextID db).
Proof.
  intros db c. split; [apply serve_issued|].
  destruct c as [drv r|drv r]; cbn [mayWrite serve]; intros H.
  - unfold handleBooks. rewrite H.
    destruct (String.eqb (Method r) MethodGet); [|now split].
    unfold getAllBooks, queryBooks.
    destruct (callErr drv); [now split|].
    destruct (scanRows _ _); now split.
  - apply orb_false_iff in H as [Hp Hd]. unfold handleBookByID.
    rewrite Hp, Hd.
    destruct (String.eqb (Method r) MethodGet); [|now split].
    unfold getBookByID. destruct (parseIDFromURL r) as [[e|id]|];
      [now split| |now split].
    unfold queryBook. destruct (callErr drv); [now split|].
    cbn [issue table]. destruct (find (hasID id) (table db)); now split.
Qed.

Lemma serve_one_statement_reads_change_nothing_witness :
  table (serve twoBooks (ToBookByID healthy (get "/books/2"))) = table twoBooks
  /\ nextID (serve twoBooks (ToBookByID healthy (get "/books/2")))
     = nextID twoBooks.
Proof.
  apply (proj2 (serve_one_statement_reads_change_nothing twoBooks
                  (ToBookByID healthy (get "/books/2")))). reflexivity.
Defined.

(** ** The range of a parsed integer *)

Lemma digitLoop_nonneg b0 base cutoff maxVal s n us m us' :
  0 <= n ->
  strconv.digitLoop b0 base cutoff maxVal s n us = inr (m, us') -> 0 <= m.
Proof.
  revert n us. induction s as [|c s IH]; intros n us Hn;
    cbn [strconv.digitLoop].
  - now intros [= <- _].
  - destruct ((code c =? 95) && b0); [now apply IH|].
    destruct (if (48 <=? code c) && (code c <=? 57) then _ else _) as [d|];
      [|discriminate].
    destruct (d >=? base); [discriminate|].
    destruct (n >=? cutoff); [discriminate|].
    destruct (_ || _); [discriminate|]. apply IH.
    apply Z.mod_pos_bound. lia.
Qed.

Lemma ParseUint_nonneg s un err :
  strconv.ParseUint s 0 64 = (un, err) -> 0 <= un.
Proof.
  unfold strconv.ParseUint. destruct s as [|c0 after0]; [intros [= <- _]; lia|].
  cbn [Z.eqb Z.leb Z.ltb Z.gtb Z.compare Pos.compare Pos.compare_cont andb orb negb].
  assert (forall b body,
             match strconv.digitLoop true b (strconv.maxUint64 / b + 1)
                     (2 ^ 64 - 1) body 0 false with
             | inl strconv.ErrRange => (2 ^ 64 - 1, Some strconv.ErrRange)
             | inl e => (0, Some e)
             | inr (n, underscores) =>
                 if underscores && negb (strconv.underscoreOK (String c0 after0))
                 then (0, Some strconv.ErrSyntax)
                 else (n, None)
             end = (un, err) -> 0 <= un) as Hloop.
  { intros b body.
    destruct (strconv.digitLoop true b _ _ body 0 false) as [e|[n us]] eqn:E.
    - destruct e; intros [= <- _]; lia.
    - apply digitLoop_nonneg in E; [|lia].
      destruct (us && _); intros [= <- _]; lia. }
  destruct (code c0 =? 48); [|apply Hloop].
  destruct after0 as [|c1 after1]; [apply Hloop|].
  destruct ((3 <=? len (String c0 (String c1 after1)))
            && (strconv.lower (code c1) =? 98)); [apply Hloop|].
  destruct ((3 <=? len (String c0 (String c1 after1)))
            && (strconv.lower (code c1) =? 111)); [apply Hloop|].
  destruct ((3 <=? len (String c0 (String c1 after1)))
            && (strconv.lower (code c1) =? 120)); apply Hloop.
Qed.

Lemma ParseInt_range s i : strconv.ParseInt s 0 64 = inr i -> inInt64 i = true.
Proof.
  unfold strconv.ParseInt. destruct s as [|c0 rest]; [discriminate|].
  destruct (strconv.ParseUint _ 0 64) as [un err] eqn:E.
  apply ParseUint_nonneg in E.
  change (2 ^ ((if 64 =? 0 then 64 else 64) - 1)) with (maxInt64 + 1).
  assert (negb (code c0 =? 45) && (un >=? maxInt64 + 1) = false ->
          (code c0 =? 45) && (un >? maxInt64 + 1) = false ->
          inInt64 (if code c0 =? 45 then - un else un) = true) as Hr.
  { intros Hp Hn. unfold inInt64, minInt64, maxInt64 in *.
    apply andb_true_iff. destruct (code c0 =? 45); cbn [negb andb] in *.
    - rewrite Z.gtb_ltb in Hn. apply Z.ltb_ge in Hn.
      split; apply Z.leb_le; lia.
    - rewrite Z.geb_leb in Hp. apply Z.leb_gt in Hp.
      split; apply Z.leb_le; lia. }
  destruct err as [[]|]; try discriminate;
    destruct (negb (code c0 =? 45) && (un >=? maxInt64 + 1)) eqn:Hp;
    try discriminate;
    destruct ((code c0 =? 45) && (un >? maxInt64 + 1)) eqn:Hn;
    try discriminate; intros [= <-]; now apply Hr.
Qed.

Lemma parseIDFromURL_inInt64 r id :
  parseIDFromURL r = Some (inr id) -> inInt64 id = true.
Proof.
  unfold parseIDFromURL.
  destruct (splitPath (Path r)) as [parts|]; [|discriminate].
  destruct (Z.of_nat (List.length parts) <? 3); [discriminate|].
  unfold fmt.Sscan, fmt.scanInt. cbn [fmt.input fmt.buf].
  destruct (fmt.SkipSpace (nth 2 parts "")) as [|c rest];
    [discriminate|].
  destruct (fmt.scanBasePrefix _) as [[s digits] have].
  destruct (fmt.scanNumber digits have s) as [e|s']; [discriminate|].
  destruct (strconv.ParseInt (fmt.buf s') 0 64) as [e|i] eqn:E;
    [discriminate|].
  intros [= <-]. now apply ParseInt_range in E.
Qed.

(** ** Delete, update and read *)

Lemma find_deleted id l :
  find (hasID id) (filter (fun b => negb (hasID id b)) l) = None.
Proof.
  induction l as [|x l IH]; simpl; [reflexivity|].
  destruct (hasID id x) eqn:E; simpl; [exact IH|]. now rewrite E.
Qed.

Lemma find_updated id title author year l :
  find (hasID id)
       (map (fun b => if hasID id b then mkBook (ID b) title author year else b)
            l)
  = match find (hasID id) l with
    | Some _ => Some (mkBook id title author year)
    | None => None
    end.
Proof.
  induction l as [|x l IH]; simpl; [reflexivity|].
  destruct (hasID id x) eqn:E.
  - unfold hasID at 1. cbn [ID]. unfold hasID in E. rewrite E.
    apply Z.eqb_eq in E. now rewrite E.
  - rewrite E. exact IH.
Qed.

Lemma find_present id l :
  Z.of_nat (List.length (filter (hasID id) l)) <> 0 ->
  exists x, find (hasID id) l = Some x.
Proof.
  induction l as [|x l IH]; simpl; [lia|].
  destruct (hasID id x); [eexists; reflexivity|exact IH].
Qed.

Lemma find_unique id row l :
  NoDup (map ID l) -> In row l -> ID row = id -> find (hasID id) l = Some row.
Proof.
  induction l as [|x l IH]; simpl; intros Hn Hin Hid; [contradiction|].
  inversion Hn as [|? ? Hx Hl]; subst.
  destruct Hin as [->|Hin].
  - unfold hasID. now rewrite Z.eqb_refl.
  - destruct (hasID (ID row) x) eqn:E; [|now apply IH].
    exfalso. apply Hx. unfold hasID in E. apply Z.eqb_eq in E. rewrite E.
    now apply in_map.
Qed.

Lemma deleteBookByID_parsed drv db r id :
  parseIDFromURL r = Some (inr id) ->
  deleteBookByID drv db r
  = let '(db', res) := execDelete drv db id in
    match res with
    | inl err =>
        Some (db', httpError ("Ошибка удаления: " ++ errorText err)
                             StatusInternalServerError)
    | inr affected =>
        if affected =? 0 then
          Some (db', httpError "Книга с таким ID не найдена" StatusNotFound)
        else
          Some (db', writeText ("Книга " ++ strconv.FormatInt id
                                ++ " успешно удалена" ++ nl))
    end.
Proof. intros H. unfold deleteBookByID. now rewrite H. Qed.

Lemma getBookByID_parsed drv db r id :
  parseIDFromURL r = Some (inr id) ->
  callErr drv = None ->
  getBookByID drv db r
  = Some (issue (SelectBook id) db,
          match find (hasID id) (table db) with
          | Some b => writeJSON (encodeBook b)
          | None => httpError "Книга не найдена" StatusNotFound
          end).
Proof.
  intros Hp Hc. unfold getBookByID, queryBook. rewrite Hp, Hc, issue_table.
  destruct (find (hasID id) (table db)); reflexivity.
Qed.

(** X5.  A delete request whose id parses, executed without a driver
    error, removes the rows of that id and no other row; it is answered
    200 with the confirmation text when there was such a row and 404,
    the table being unchanged, when there was none. *)
Theorem deleteBookByID_outcome :
  forall drv db r id,
    parseIDFromURL r = Some (inr id) ->
    callErr drv = None ->
    exists db' resp,
      deleteBookByID drv db r = Some (db', resp)
      /\ table db' = filter (fun b => negb (ID b =? id)) (table db)
      /\ ((exists row, In row (table db) /\ ID row = id) ->
          resp = writeText ("Книга " ++ strconv.FormatInt id
                            ++ " успешно удалена" ++ nl))
      /\ ((forall row, In row (table db) -> ID row <> id) ->
          Status resp = StatusNotFound /\ table db' = table db).
Proof.
  intros drv db r id Hp Hc.
  rewrite (deleteBookByID_parsed drv db r id Hp).
  unfold execDelete, deleteRows. rewrite Hc, issue_table.
  destruct (Z.of_nat (List.length (filter (hasID id) (table db))) =? 0) eqn:E;
    eexists; eexists; (split; [reflexivity|]); (split; [reflexivity|]).
  - apply Z.eqb_eq in E. pose proof (proj1 (affected_zero id (table db)) E) as Hno.
    split.
    + intros (row & Hin & Hid). exfalso. exact (Hno row Hin Hid).
    + intros _. split; [reflexivity|]. cbn [table].
      clear E. induction (table db) as [|x l IH]; [reflexivity|].
      cbn [filter]. assert (hasID id x = false) as ->.
      { unfold hasID. apply Z.eqb_neq. apply Hno. now left. }
      cbn [negb]. f_equal. apply IH. intros row Hr. apply Hno. now right.
  - apply Z.eqb_neq in E. split; [reflexivity|].
    intros Hno. exfalso. apply E. now apply affected_zero.
Qed.

Lemma deleteBookByID_outcome_witness :
  exists db' resp,
    deleteBookByID healthy twoBooks (mkRequest MethodDelete "/books/1" None)
    = Some (db', resp)
    /\ table db' = filter (fun b => negb (ID b =? 1)) (table twoBooks)
    /\ ((exists row, In row (table twoBooks) /\ ID row = 1) ->
        resp = writeText ("Книга " ++ strconv.FormatInt 1
                          ++ " успешно удалена" ++ nl))
    /\ ((forall row, In row (table twoBooks) -> ID row <> 1) ->
        Status resp = StatusNotFound /\ table db' = table twoBooks).
Proof.
  apply (deleteBookByID_outcome healthy twoBooks
           (mkRequest MethodDelete "/books/1" None) 1); reflexivity.
Defined.

(** X6.  After a delete request for an id has been executed, a get-by-id
    for that id is answered 404, whether the delete found a row or
    not. *)
Theorem getBookByID_after_deleteBookByID :
  forall drv db r id db' resp drv' r',
    parseIDFromURL r = Some (inr id) ->
    callErr drv = None ->
    deleteBookByID drv db r = Some (db', resp) ->
    parseIDFromURL r' = Some (inr id) ->
    callErr drv' = None ->
    getBookByID drv' db' r'
    = Some (issue (SelectBook id) db',
            httpError "Книга не найдена" StatusNotFound).
Proof.
  intros drv db r id db' resp drv' r' Hp Hc Hd Hp' Hc'.
  rewrite (getBookByID_parsed drv' db' r' id Hp' Hc').
  rewrite (deleteBookByID_parsed drv db r id Hp) in Hd.
  unfold execDelete, deleteRows in Hd. rewrite Hc, issue_table in Hd.
  assert (table db' = filter (fun b => negb (hasID id b)) (table db)) as ->.
  { destruct (Z.of_nat _ =? 0); injection Hd as <- _; reflexivity. }
  now rewrite find_deleted.
Qed.

Lemma getBookByID_after_deleteBookByID_witness :
  getBookByID healthy
    (serve twoBooks (ToBookByID healthy (mkRequest MethodDelete "/books/1" None)))
    (get "/books/1")
  = Some (issue (SelectBook 1)
            (serve twoBooks
               (ToBookByID healthy (mkRequest MethodDelete "/books/1" None))),
          httpError "Книга не найдена" StatusNotFound).
Proof.
  apply (getBookByID_after_deleteBookByID healthy twoBooks
           (mkRequest MethodDelete "/books/1" None) 1
           (serve twoBooks
              (ToBookByID healthy (mkRequest MethodDelete "/books/1" None)))
           (writeText ("Книга " ++ strconv.FormatInt 1
                       ++ " успешно удалена" ++ nl)));
    reflexivity.
Defined.

(** X7.  After an update request answered 200 whose title and author
    have at most 255 characters each, a get-by-id on the path of the
    same id, served after any calls none of which updates or deletes
    that id, is answered 200 with the id and the title, author and year
    of the update, not the earlier ones. *)
Theorem getBookByID_after_updateBookByID :
  forall drv db r id b db1 resp calls drv' m body,
    parseIDFromURL r = Some (inr id) ->
    Decode (Body r) zeroBook = inr b ->
    updateBookByID drv db r = Some (db1, resp) ->
    Status resp = StatusOK ->
    (charLen (Title b) <= 255)%nat ->
    (charLen (Author b) <= 255)%nat ->
    forallb (fun c => negb (writesTo id c)) calls = true ->
    callErr drv' = None ->
    getBookByID drv' (serveAll db1 calls)
      (mkRequest m (booksPrefix ++ strconv.FormatInt id) body)
    = Some (issue (SelectBook id) (serveAll db1 calls),
            writeJSON (JObj [("id", JInt id); ("title", JStr (Title b));
                             ("author", JStr (Author b));
                             ("year", JInt (Year b))])).
Proof.
  intros drv db r id b db1 resp calls drv' m body Hp Hd Hu Hs Ht Ha Hall Hc'.
  rewrite (getBookByID_path drv' _ m body id (parseIDFromURL_inInt64 r id Hp) Hc').
  rewrite (updateBookByID_decoded drv db r id b Hp Hd) in Hu.
  destruct (execUpdate drv db (Title b) (Author b) (Year b) id)
    as [db' [err|n]] eqn:E; [injection Hu as <- <-; discriminate|].
  apply execUpdate_after in E as [_ E].
  destruct (E n eq_refl) as (_ & -> & ->).
  destruct (Z.of_nat (List.length (filter (hasID id) (table db))) =? 0) eqn:Ez;
    injection Hu as <- <-; [discriminate|].
  apply Z.eqb_neq in Ez. destruct (find_present id (table db) Ez) as [x Hx].
  rewrite (serveAll_keeps id (mkBook id (Title b) (Author b) (Year b)) calls);
    [reflexivity| |exact Hall].
  cbn [table].
  now rewrite find_updated, Hx, (varchar255_fits _ Ht), (varchar255_fits _ Ha).
Qed.

Lemma getBookByID_after_updateBookByID_witness :
  getBookByID healthy
    (serveAll (serve oneBook (ToBookByID healthy (put "/books/1" untitled)))
              [ToBooks healthy (post golangBook)])
    (get "/books/1")
  = Some (issue (SelectBook 1)
            (serveAll (serve oneBook
                         (ToBookByID healthy (put "/books/1" untitled)))
                      [ToBooks healthy (post golangBook)]),
          writeJSON (JObj [("id", JInt 1); ("title", JStr "");
                           ("author", JStr "John Doe"); ("year", JInt 2023)])).
Proof.
  apply (getBookByID_after_updateBookByID healthy oneBook
           (put "/books/1" untitled) 1 (mkBook 0 "" "John Doe" 2023)
           (serve oneBook (ToBookByID healthy (put "/books/1" untitled)))
           (writeText ("Книга " ++ strconv.FormatInt 1
                       ++ " успешно обновлена" ++ nl))
           [ToBooks healthy (post golangBook)] healthy MethodGet None);
    try reflexivity; cbn; lia.
Defined.

(** X8.  While ids are unique, a get-by-id whose id is that of a stored
    row is answered 200 with exactly that row; when no row has the id
    the answer is 404.  The table is not changed either way. *)
Theorem getBookByID_finds_the_row :
  forall drv db r id,
    parseIDFromURL r = Some (inr id) ->
    callErr drv = None ->
    exists db' resp,
      getBookByID drv db r = Some (db', resp)
      /\ table db' = table db
      /\ (forall row, uniqueIDs db -> In row (table db) -> ID row = id ->
                      resp = writeJSON (encodeBook row))
      /\ ((forall row, In row (table db) -> ID row <> id) ->
          resp = httpError "Книга не найдена" StatusNotFound).
Proof.
  intros drv db r id Hp Hc. rewrite (getBookByID_parsed drv db r id Hp Hc).
  eexists. eexists. split; [reflexivity|]. split; [reflexivity|]. split.
  - intros row Hu Hin Hid. now rewrite (find_unique id row (table db) Hu Hin Hid).
  - intros Hno. destruct (find (hasID id) (table db)) as [x|] eqn:E;
      [|reflexivity].
    apply find_some in E as [Hin Hx]. exfalso. apply (Hno x Hin).
    now apply Z.eqb_eq.
Qed.

Lemma getBookByID_finds_the_row_witness :
  exists db' resp,
    getBookByID healthy twoBooks (get "/books/2") = Some (db', resp)
    /\ table db' = table twoBooks
    /\ (forall row, uniqueIDs twoBooks -> In row (table twoBooks) ->
                    ID row = 2 -> resp = writeJSON (encodeBook row))
    /\ ((forall row, In row (table twoBooks) -> ID row <> 2) ->
        resp = httpError "Книга не найдена" StatusNotFound).
Proof.
  apply (getBookByID_finds_the_row healthy twoBooks (get "/books/2") 2);
    reflexivity.
Defined.

(** X9.  An update request never adds or removes a row and never changes
    an id: the ids of the table, in order, are the same after it as
    before, whatever the request and the driver. *)
Theorem updateBookByID_keeps_ids :
  forall drv db r db' resp,
    updateBookByID drv db r = Some (db', resp) ->
    map ID (table db') = map ID (table db) /\ nextID db' = nextID db.
Proof.
  intros drv db r db' resp H.
  apply updateBookByID_db in H as [->|(id & b & _ & _ & ->)]; [now split|].
  destruct (execUpdate drv db (Title b) (Author b) (Year b) id)
    as [db1 res] eqn:E.
  apply execUpdate_after in E as [[->| ->] _]; cbn [fst table nextID issue];
    (split; [|reflexivity]); [reflexivity|now apply map_ID_update].
Qed.

Lemma updateBookByID_keeps_ids_witness :
  map ID (table (serve twoBooks (ToBookByID healthy (put "/books/2" untitled))))
  = map ID (table twoBooks)
  /\ nextID (serve twoBooks (ToBookByID healthy (put "/books/2" untitled)))
     = nextID twoBooks.
Proof.
  apply (updateBookByID_keeps_ids healthy twoBooks (put "/books/2" untitled)
           (serve twoBooks (ToBookByID healthy (put "/books/2" untitled)))
           (writeText ("Книга " ++ strconv.FormatInt 2
                       ++ " успешно обновлена" ++ nl))).
  reflexivity.
Defined.

(** ** The list handler on a table with rows *)

(** X10.  On a table with at least one row, the query and the iteration
    going through, getAllBooks answers 200 with the JSON array of all
    the rows, in the order of the table, and changes nothing. *)
Theorem getAllBooks_lists_every_row :
  forall db r,
    table db <> [] ->
    getAllBooks healthy db r
    = (issue SelectBooks db, writeJSON (JArr (map encodeBook (table db)))).
Proof.
  intros db r Ht. unfold getAllBooks, queryBooks, healthy.
  cbn [callErr rowsFault pending mkDriver]. rewrite issue_table.
  rewrite <- (app_nil_r (map Fetched _)), scanRows_fetched, append_all_nil.
  cbn [scanRows]. destruct (table db); [congruence|reflexivity].
Qed.

Lemma getAllBooks_lists_every_row_witness :
  getAllBooks healthy twoBooks (get "/books")
  = (issue SelectBooks twoBooks,
     writeJSON (JArr (map encodeBook (table twoBooks)))).
Proof. apply (getAllBooks_lists_every_row twoBooks). discriminate. Defined.

(** X11.  When the Scan of a row of the result fails, getAllBooks answers
    500 with the error text and nothing of the rows scanned before it:
    there is no partial list. *)
Theorem getAllBooks_scan_failure :
  forall db r n e,
    (n < List.length (table db))%nat ->
    getAllBooks (mkDriver None (ScanFailsAt n e)) db r
    = (issue SelectBooks db,
       httpError ("Ошибка чтения строки: " ++ e) StatusInternalServerError).
Proof.
  intros db r n e Hn. unfold getAllBooks, queryBooks.
  cbn [callErr rowsFault pending mkDriver]. rewrite issue_table, scanRows_fetched.
  destruct (skipn n (table db)) as [|x rest] eqn:Hs; [|reflexivity].
  exfalso. apply (f_equal (@List.length Book)) in Hs.
  rewrite length_skipn in Hs. cbn in Hs. lia.
Qed.

Lemma getAllBooks_scan_failure_witness :
  getAllBooks (mkDriver None (ScanFailsAt 1 "converting NULL to string"))
              twoBooks (get "/books")
  = (issue SelectBooks twoBooks,
     httpError ("Ошибка чтения строки: " ++ "converting NULL to string")
               StatusInternalServerError).
Proof.
  apply (getAllBooks_scan_failure twoBooks (get "/books") 1). cbn. lia.
Defined.

(** ** Driver errors *)



(** ** Dispatch and panics *)

Lemma splitPath_none path : splitPath path = None <-> len path < 7.
Proof.
  unfold splitPath. change (len booksPrefix) with 7.
  destruct (Z.ltb_spec (len path) 7); split; intros H';
    try reflexivity; try discriminate; try lia.
Qed.

Lemma parseIDFromURL_none r : parseIDFromURL r = None <-> len (Path r) < 7.
Proof.
  rewrite <- splitPath_none. unfold parseIDFromURL.
  destruct (splitPath (Path r)) as [parts|] eqn:E; [|tauto].
  split; [|discriminate].
  destruct (Z.of_nat (List.length parts) <? 3); [discriminate|].
  destruct (fmt.Sscan _); discriminate.
Qed.

(** X13.  The extractor panics exactly on a path shorter than the seven
    bytes of /books/, and it never looks at those seven bytes: two
    paths of seven bytes or more that agree from the eighth byte on
    are treated alike. *)
Theorem parseIDFromURL_ignores_the_prefix :
  forall r,
    (parseIDFromURL r = None <-> len (Path r) < 7)
    /\ forall r',
         7 <= len (Path r) -> 7 <= len (Path r') ->
         drop 7 (Path r) = drop 7 (Path r') ->
         parseIDFromURL r = parseIDFromURL r'.
Proof.
  intros r. split; [apply parseIDFromURL_none|].
  intros r' H H' E. unfold parseIDFromURL, splitPath.
  change (len booksPrefix) with 7.
  change (String.length booksPrefix) with 7%nat.
  destruct (Z.ltb_spec (len (Path r)) 7); [lia|].
  destruct (Z.ltb_spec (len (Path r')) 7); [lia|].
  cbn [List.length nth Z.of_nat]. now rewrite E.
Qed.

Lemma parseIDFromURL_ignores_the_prefix_witness :
  parseIDFromURL (get "/books/42") = parseIDFromURL (get "/shelf/42").
Proof.
  apply (proj2 (parseIDFromURL_ignores_the_prefix (get "/books/42"))
           (get "/shelf/42")); [cbn; lia|cbn; lia|reflexivity].
Defined.

(** X14.  handleBooks answers 405 to every method but POST and GET, and
    handleBookByID to every method but GET, PUT and DELETE, without
    looking at the path or going to the database; handleBookByID
    panics exactly when the method is one of its three and the path is
    shorter than seven bytes. *)
Theorem unsupported_methods_and_panics :
  forall drv db r,
    (String.eqb (Method r) MethodPost = false ->
     String.eqb (Method r) MethodGet = false ->
     handleBooks drv db r
     = (db, httpError "Метод не поддерживается" StatusMethodNotAllowed))
    /\ (String.eqb (Method r) MethodGet = false ->
        String.eqb (Method r) MethodPut = false ->
        String.eqb (Method r) MethodDelete = false ->
        handleBookByID drv db r
        = Some (db, httpError "Метод не поддерживается"
                              StatusMethodNotAllowed))
    /\ (handleBookByID drv db r = None
        <-> (String.eqb (Method r) MethodGet
             || String.eqb (Method r) MethodPut
             || String.eqb (Method r) MethodDelete = true)
            /\ len (Path r) < 7).
Proof.
  intros drv db r. split; [|split].
  - intros Hp Hg. unfold handleBooks. now rewrite Hp, Hg.
  - intros Hg Hp Hd. unfold handleBookByID. now rewrite Hg, Hp, Hd.
  - rewrite <- parseIDFromURL_none. unfold handleBookByID.
    destruct (String.eqb (Method r) MethodGet).
    { cbn [orb]. unfold getBookByID.
      destruct (parseIDFromURL r) as [[e|id]|]; [| |tauto].
      - split; [discriminate|intros [_ H]; discriminate].
      - unfold queryBook. destruct (callErr drv).
        + split; [discriminate|intros [_ H]; discriminate].
        + cbn [issue table]. destruct (find (hasID id) (table db));
            (split; [discriminate|intros [_ H]; discriminate]). }
    destruct (String.eqb (Method r) MethodPut).
    { cbn [orb]. unfold updateBookByID.
      destruct (parseIDFromURL r) as [[e|id]|]; [| |tauto].
      - split; [discriminate|intros [_ H]; discriminate].
      - destruct (Decode (Body r) zeroBook).
        + split; [discriminate|intros [_ H]; discriminate].
        + unfold execUpdate, updateRows. destruct (callErr drv).
          * split; [discriminate|intros [_ H]; discriminate].
          * rewrite issue_table. destruct (Z.of_nat _ =? 0);
              (split; [discriminate|intros [_ H]; discriminate]). }
    destruct (String.eqb (Method r) MethodDelete).
    { cbn [orb]. unfold deleteBookByID.
      destruct (parseIDFromURL r) as [[e|id]|]; [| |tauto].
      - split; [discriminate|intros [_ H]; discriminate].
      - unfold execDelete, deleteRows. destruct (callErr drv).
        + split; [discriminate|intros [_ H]; discriminate].
        + rewrite issue_table. destruct (Z.of_nat _ =? 0);
            (split; [discriminate|intros [_ H]; discriminate]). }
    cbn [orb]. split; [discriminate|intros [H _]; discriminate].
Qed.

Lemma unsupported_methods_and_panics_witness :
  handleBookByID healthy twoBooks (mkRequest "PATCH" "/b" None)
  = Some (twoBooks, httpError "Метод не поддерживается" StatusMethodNotAllowed).
Proof.
  apply (proj1 (proj2 (unsupported_methods_and_panics healthy twoBooks
                         (mkRequest "PATCH" "/b" None)))); reflexivity.
Defined.

(** ** Text after the id *)

Lemma append_assoc_string (a b c : string) : (a ++ b) ++ c = a ++ b ++ c.
Proof. induction a; simpl; [reflexivity|now f_equal]. Qed.

Lemma acceptAll_digits_then s tail b :
  allDigits s = true ->
  (forall c t, tail = String c t ->
               indexByte c (fmt.decimalDigits ++ "_") = false) ->
  fmt.acceptAll (fmt.decimalDigits ++ "_") (s ++ tail) b
  = {| fmt.input := tail; fmt.buf := b ++ s |}.
Proof.
  intros Hs Ht. revert b. induction s as [|c s IH]; intros b.
  - cbn [String.append]. destruct tail as [|c t]; cbn [fmt.acceptAll].
    + f_equal. clear. induction b; simpl; [reflexivity|now f_equal].
    + rewrite (Ht c t eq_refl). f_equal.
      clear. induction b; simpl; [reflexivity|now f_equal].
  - cbn [allDigits] in Hs. apply andb_true_iff in Hs as [Hc Hs].
    cbn [String.append fmt.acceptAll].
    rewrite (digit_in_digits c Hc), (IH Hs). f_equal.
    now rewrite append_assoc_string.
Qed.

Lemma Sscan_decimal_then c rest tail u :
  49 <= code c <= 57 -> allDigits rest = true ->
  (forall k t, tail = String k t ->
               indexByte k (fmt.decimalDigits ++ "_") = false) ->
  strconv.digitLoop true 10 cutoff10 max64 (String c rest) 0 false
  = inr (u, false) ->
  (u <= maxInt64 -> fmt.Sscan (String c rest ++ tail) = inr u)
  /\ (u <= - minInt64 ->
      fmt.Sscan (String (chr 45) (String c rest) ++ tail) = inr (- u)).
Proof.
  intros Hc Hr Ht Hl. destruct (ParseInt_decimal c rest u Hc Hl) as [Hp Hn].
  assert (isDigit c = true) as Hd.
  { unfold isDigit. apply andb_true_iff. split; apply Z.leb_le; lia. }
  assert (forall b0,
             fmt.scanNumber (fmt.decimalDigits ++ "_") false
               {| fmt.input := String c (rest ++ tail); fmt.buf := b0 |}
             = inr {| fmt.input := tail; fmt.buf := b0 ++ String c rest |})
    as Htok.
  { intros b0. unfold fmt.scanNumber, fmt.accept. cbn [fmt.input fmt.buf].
    rewrite (digit_in_digits c Hd). cbn [fmt.input fmt.buf].
    rewrite acceptAll_digits_then by assumption. f_equal. f_equal.
    now rewrite append_assoc_string. }
  split; intros Hu; unfold fmt.Sscan, fmt.scanInt;
    cbn [fmt.input fmt.buf String.append].
  - rewrite SkipSpace_graphic by lia.
    unfold fmt.accept at 1. cbn [fmt.input fmt.buf].
    rewrite (digit_not_sign c Hd). cbn [snd].
    unfold fmt.scanBasePrefix, fmt.peek. cbn [fmt.input].
    rewrite (nonzero_not_zero c Hc). cbn [negb].
    rewrite Htok. cbn [fmt.buf String.append].
    rewrite (Hp Hu). reflexivity.
  - rewrite SkipSpace_graphic by (change (code (chr 45)) with 45; lia).
    unfold fmt.accept at 1. cbn [fmt.input fmt.buf].
    change (indexByte (chr 45) fmt.sign) with true. cbn [snd String.append].
    unfold fmt.scanBasePrefix, fmt.peek. cbn [fmt.input].
    rewrite (nonzero_not_zero c Hc). cbn [negb].
    rewrite Htok. cbn [fmt.buf String.append].
    rewrite (Hn Hu). reflexivity.
Qed.

Lemma not_decimal_not_octal k :
  indexByte k (fmt.decimalDigits ++ "_") = false ->
  indexByte k (fmt.octalDigits ++ "_") = false.
Proof.
  cbn [fmt.decimalDigits fmt.octalDigits String.append indexByte]. intros H.
  repeat (match type of H with
          | (if ?x then _ else _) = false => destruct x; [discriminate|]
          end).
  reflexivity.
Qed.

Lemma Sscan_zero_then tail :
  endsNumber 0 tail = true -> fmt.Sscan ("0" ++ tail) = inr 0.
Proof.
  destruct tail as [|k t]; [reflexivity|]. cbn [endsNumber].
  change (negb (0 =? 0)) with false. cbn [orb]. intros H.
  apply andb_true_iff in H as [Hd Hb]. apply negb_true_iff in Hd, Hb.
  pose proof (not_decimal_not_octal k Hd) as Ho.
  cbn [indexByte] in Hb.
  unfold fmt.Sscan, fmt.scanInt. cbn [fmt.input fmt.buf String.append].
  rewrite SkipSpace_graphic by (change (code "0") with 48; lia).
  unfold fmt.accept at 1. cbn [fmt.input fmt.buf].
  change (indexByte "0" fmt.sign) with false. cbn [snd].
  unfold fmt.scanBasePrefix, fmt.peek, fmt.accept. cbn [fmt.input fmt.buf].
  change (indexByte "0" "0") with true. cbn [negb snd fmt.input fmt.buf].
  cbn [indexByte].
  destruct (Ascii.eqb k "b"); [discriminate|].
  destruct (Ascii.eqb k "B"); [discriminate|].
  destruct (Ascii.eqb k "o"); [discriminate|].
  destruct (Ascii.eqb k "O"); [discriminate|].
  destruct (Ascii.eqb k "x"); [discriminate|].
  destruct (Ascii.eqb k "X"); [discriminate|].
  unfold fmt.scanNumber. cbn [fmt.input fmt.buf fmt.acceptAll].
  rewrite Ho. reflexivity.
Qed.

Lemma Sscan_FormatInt_then id tail :
  inInt64 id = true -> endsNumber id tail = true ->
  fmt.Sscan (strconv.FormatInt id ++ tail) = inr id.
Proof.
  unfold inInt64. intros H He. apply andb_true_iff in H as [H1 H2].
  apply Z.leb_le in H1. apply Z.leb_le in H2.
  unfold minInt64 in H1. unfold maxInt64 in H2.
  destruct (Z.eq_dec id 0) as [->|Hnz]; [now apply Sscan_zero_then|].
  assert (forall k t, tail = String k t ->
                      indexByte k (fmt.decimalDigits ++ "_") = false) as Ht.
  { intros k t ->. cbn [endsNumber] in He.
    apply andb_true_iff in He as [He _]. now apply negb_true_iff in He. }
  assert (forall u, 0 < u <= - minInt64 ->
            exists c rest,
              strconv.formatBits 20 u "" = String c rest
              /\ 49 <= code c <= 57 /\ allDigits rest = true
              /\ strconv.digitLoop true 10 cutoff10 max64 (String c rest) 0 false
                 = inr (u, false)) as Hfmt.
  { intros u Hu. unfold minInt64 in Hu.
    destruct (formatBits_head 20 u "") as (d & rest & Hd & E).
    { split; [lia|]. change (10 ^ Z.of_nat 20) with 100000000000000000000. lia. }
    exists (chr (48 + d)), rest. split; [exact E|].
    split; [rewrite code_chr by lia; lia|].
    pose proof (formatBits_digits 20 u "" ltac:(lia) eq_refl) as Ha.
    rewrite E in Ha. cbn [allDigits] in Ha.
    apply andb_true_iff in Ha as [_ Ha]. split; [exact Ha|].
    rewrite <- E. rewrite formatBits_value; [reflexivity| |unfold max64; lia].
    split; [lia|]. change (10 ^ Z.of_nat 20) with 100000000000000000000. lia. }
  unfold strconv.FormatInt.
  destruct (Z.ltb_spec id 0) as [Hneg|Hpos].
  - destruct (Hfmt (- id)) as (c & rest & E & Hc & Hr & Hl);
      [unfold minInt64; lia|].
    rewrite E.
    destruct (Sscan_decimal_then c rest tail (- id) Hc Hr Ht Hl) as [_ Hn].
    rewrite Hn by (unfold minInt64; lia). f_equal. lia.
  - destruct (Hfmt id) as (c & rest & E & Hc & Hr & Hl);
      [unfold minInt64; lia|].
    rewrite E.
    destruct (Sscan_decimal_then c rest tail id Hc Hr Ht Hl) as [Hp _].
    apply Hp. unfold maxInt64. lia.
Qed.

(** X15.  Whatever follows the id in the path is ignored: for an id of the
    64-bit range in plain decimal notation followed by any text that
    does not continue the number (a slash and further segments, for
    one), the extractor returns the id and no error. *)
Theorem parseIDFromURL_ignores_what_follows :
  forall m body id tail,
    inInt64 id = true ->
    endsNumber id tail = true ->
    parseIDFromURL
      (mkRequest m (booksPrefix ++ strconv.FormatInt id ++ tail) body)
    = Some (inr id).
Proof.
  intros m body id tail Hi He. rewrite parseIDFromURL_prefixed.
  now rewrite (Sscan_FormatInt_then id tail Hi He).
Qed.

Lemma parseIDFromURL_ignores_what_follows_witness :
  parseIDFromURL (get "/books/7/chapters/3") = Some (inr 7).
Proof.
  apply (parseIDFromURL_ignores_what_follows MethodGet None 7
           "/chapters/3"); reflexivity.
Defined.

(** ** The range of an extracted id *)










(** ** JSON: members that are missing *)

Lemma setField_keeps f v b b' :
  setField f v b = Some b' ->
  (f <> FTitle -> Title b' = Title b) /\ (f <> FAuthor -> Author b' = Author b).
Proof.
  destruct f, v; cbn [setField]; try discriminate;
    try (intros [= <-]; split; intros; (reflexivity || congruence));
    destruct (inInt64 z); try discriminate;
    intros [= <-]; split; reflexivity.
Qed.

Lemma fieldOf_named key f :
  fieldOf key = Some f ->
  (f = FTitle -> String.eqb (foldName key) "title" = true)
  /\ (f = FAuthor -> String.eqb (foldName key) "author" = true).
Proof.
  unfold fieldOf.
  destruct (String.eqb (foldName key) "id"); [intros [= <-]; split; discriminate|].
  destruct (String.eqb (foldName key) "title"); [intros [= <-]; split; [reflexivity|discriminate]|].
  destruct (String.eqb (foldName key) "author"); [intros [= <-]; split; [discriminate|reflexivity]|].
  destruct (String.eqb (foldName key) "year"); [intros [= <-]; split; discriminate|].
  discriminate.
Qed.

Lemma decodeMembers_unnamed members b bad :
  (names "title" members = false ->
   Title (fst (decodeMembers members b bad)) = Title b)
  /\ (names "author" members = false ->
      Author (fst (decodeMembers members b bad)) = Author b).
Proof.
  revert b bad. induction members as [|[key v] members IH]; intros b bad;
    [split; reflexivity|].
  cbn [decodeMembers names existsb fst].
  destruct (fieldOf key) as [f|] eqn:Ef.
  - destruct (fieldOf_named key f Ef) as [Ft Fa].
    destruct (setField f v b) as [b'|] eqn:Es.
    + destruct (setField_keeps f v b b' Es) as [Kt Ka].
      destruct (IH b' bad) as [It Ia]. split; intros H;
        apply orb_false_iff in H as [Hk Hm].
      * rewrite (It Hm). apply Kt. intros ->. rewrite (Ft eq_refl) in Hk.
        discriminate.
      * rewrite (Ia Hm). apply Ka. intros ->. rewrite (Fa eq_refl) in Hk.
        discriminate.
    + destruct (IH b true) as [It Ia]. split; intros H;
        apply orb_false_iff in H as [Hk Hm]; auto.
  - destruct (IH b bad) as [It Ia]. split; intros H;
      apply orb_false_iff in H as [Hk Hm]; auto.
Qed.

(** X18.  A create request whose body is a JSON object with no member for
    the title, or none for the author (keys being compared without
    regard to case), is answered 400 and leaves the database as it
    was, whatever else the object holds. *)
Theorem createBook_missing_member :
  forall drv db m path members,
    names "title" members = false \/ names "author" members = false ->
    exists resp,
      createBook drv db (mkRequest m path (Some (JObj members))) = (db, resp)
      /\ Status resp = StatusBadRequest.
Proof.
  intros drv db m path members H. unfold createBook. cbn [Body Decode].
  destruct (decodeMembers members zeroBook false) as [b bad] eqn:E.
  destruct bad; [eexists; split; reflexivity|].
  destruct (decodeMembers_unnamed members zeroBook false) as [Ht Ha].
  rewrite E in Ht, Ha. cbn [fst] in Ht, Ha.
  assert (String.eqb (Title b) "" || String.eqb (Author b) "" = true) as ->.
  { apply orb_true_iff. destruct H as [H|H]; [left|right];
      apply String.eqb_eq; [now apply Ht|now apply Ha]. }
  eexists. split; reflexivity.
Qed.

Lemma createBook_missing_member_witness :
  exists resp,
    createBook healthy twoBooks
      (mkRequest MethodPost "/books" (Some anonymous))
    = (twoBooks, resp)
    /\ Status resp = StatusBadRequest.
Proof.
  apply (createBook_missing_member healthy twoBooks MethodPost "/books"
           [("name", JStr "Golang Book"); ("author", JStr "John Doe")]).
  left. reflexivity.
Defined.

(** X19.  A create request never alters or removes a row that is there
    and adds at most one, at the end of the table.  Answered 200 it has
    added one: the row has the next id of the sequence and the title
    and author as the columns keep them, while the response carries
    them as submitted.  Answered 400 it has left the database as it
    was.  Answered otherwise it has added no row, unless the driver
    reported the failure of a statement that had been carried out. *)
Theorem createBook_row_effect :
  forall drv db r db' resp,
    createBook drv db r = (db', resp) ->
    (table db' = table db
     \/ exists b,
          Decode (Body r) zeroBook = inr b
          /\ table db'
             = (table db
                ++ [mkBook (nextID db) (varchar255 (Title b))
                           (varchar255 (Author b)) (Year b)])%list)
    /\ (Status resp = StatusOK ->
        exists b,
          Decode (Body r) zeroBook = inr b
          /\ table db'
             = (table db
                ++ [mkBook (nextID db) (varchar255 (Title b))
                           (varchar255 (Author b)) (Year b)])%list
          /\ resp = writeJSON (encodeBook (mkBook (nextID db) (Title b)
                                                  (Author b) (Year b))))
    /\ (Status resp = StatusBadRequest -> db' = db)
    /\ (afterCommit drv = false -> Status resp <> StatusOK ->
        table db' = table db).
Proof.
  intros drv db r db' resp Hc.
  destruct (Decode (Body r) zeroBook) as [e|b] eqn:Hd.
  { rewrite (createBook_undecodable drv db r e Hd) in Hc.
    injection Hc as <- <-. split; [now left|]. split; [discriminate|].
    split; [reflexivity|]. reflexivity. }
  rewrite (createBook_decoded drv db r b Hd) in Hc.
  destruct (_ || _).
  { injection Hc as <- <-. split; [now left|]. split; [discriminate|].
    split; [reflexivity|]. reflexivity. }
  unfold insertReturningID, insertRow in Hc.
  cbn [nextID issue table issued] in Hc.
  destruct (callErr drv) as [e|].
  - destruct (afterCommit drv);
      [destruct (existsb (hasID (nextID db)) (table db))|];
      cbn [fst] in Hc; injection Hc as <- <-; cbn [table];
      (split; [first [now left|right; exists b; now split]|]);
      (split; [discriminate|]); (split; [discriminate|]);
      first [reflexivity|discriminate].
  - destruct (existsb (hasID (nextID db)) (table db));
      injection Hc as <- <-; cbn [table].
    + split; [now left|]. split; [discriminate|]. split; [discriminate|].
      reflexivity.
    + split; [right; exists b; now split|].
      split; [intros _; exists b; repeat split|].
      split; [discriminate|]. intros _ H. exfalso. now apply H.
Qed.

Lemma createBook_row_effect_witness :
  (table (fst (createBook healthy twoBooks (post paddedBook))) = table twoBooks
   \/ exists b,
        Decode (Body (post paddedBook)) zeroBook = inr b
        /\ table (fst (createBook healthy twoBooks (post paddedBook)))
           = (table twoBooks
              ++ [mkBook (nextID twoBooks) (varchar255 (Title b))
                         (varchar255 (Author b)) (Year b)])%list)
  /\ (Status (snd (createBook healthy twoBooks (post paddedBook))) = StatusOK ->
      exists b,
        Decode (Body (post paddedBook)) zeroBook = inr b
        /\ table (fst (createBook healthy twoBooks (post paddedBook)))
           = (table twoBooks
              ++ [mkBook (nextID twoBooks) (varchar255 (Title b))
                         (varchar255 (Author b)) (Year b)])%list
        /\ snd (createBook healthy twoBooks (post paddedBook))
           = writeJSON (encodeBook (mkBook (nextID twoBooks) (Title b)
                                           (Author b) (Year b))))
  /\ (Status (snd (createBook healthy twoBooks (post paddedBook)))
      = StatusBadRequest ->
      fst (createBook healthy twoBooks (post paddedBook)) = twoBooks)
  /\ (afterCommit healthy = false ->
      Status (snd (createBook healthy twoBooks (post paddedBook))) <> StatusOK ->
      table (fst (createBook healthy twoBooks (post paddedBook)))
      = table twoBooks).
Proof.
  apply (createBook_row_effect healthy twoBooks (post paddedBook)
           (fst (createBook healthy twoBooks (post paddedBook)))
           (snd (createBook healthy twoBooks (post paddedBook)))).
  vm_compute. reflexivity.
Defined.

(** ** Configuration *)

(** X20.  getEnv makes no difference between a variable that is not set
    and one set to the empty string: both give the default, so with a
    non-empty default the result is never empty, and an empty value
    cannot be configured; any other value is returned as it is. *)
Theorem getEnv_default :
  forall env key defVal,
    (env key = None \/ env key = Some "" -> getEnv env key defVal = defVal)
    /\ (forall v, env key = Some v -> v <> "" -> getEnv env key defVal = v)
    /\ (defVal <> "" -> getEnv env key defVal <> "").
Proof.
  intros env key defVal. unfold getEnv, Getenv. split; [|split].
  - intros [-> | ->]; reflexivity.
  - intros v -> Hv. apply String.eqb_neq in Hv. now rewrite Hv.
  - intros Hd. destruct (env key) as [v|]; [|exact Hd].
    destruct (String.eqb_spec v ""); [exact Hd|assumption].
Qed.

Lemma getEnv_default_witness :
  getEnv (fun key => if String.eqb key "POSTGRES_PASSWORD" then Some "" else None)
         "POSTGRES_PASSWORD" "password"
  = "password".
Proof.
  apply (proj1 (getEnv_default
                  (fun key => if String.eqb key "POSTGRES_PASSWORD"
                              then Some "" else None)
                  "POSTGRES_PASSWORD" "password")).
  right. reflexivity.
Defined.
